(** * Meta post automation: the publish relay and the dashboard controller

    A shallow embedding of the two pieces of logic of the repository:

    - the relay route [POST] (the Next.js route handler that validates a
      publish request, forwards it to the Graph API and maps the answer
      back), in [Module Relay];
    - the state handlers of [MetaAutomationDashboard]
      ([handleTemplateSave], [applyTemplate], [enqueuePost] and the
      settlement of the relay promise), in [Module Dashboard].

    The definitions come first ([JS], [Relay], [Dashboard], then sample
    data), the properties after them ([RelayFacts], [DashboardFacts]), and
    the runs on concrete inputs last ([RelayExamples],
    [DashboardExamples]).

    Conventions.  An optional string field [f?: string] is an
    [option string]; [undefined] is [None].  A string holds its text in
    UTF-8.  Instants are milliseconds since the epoch, in [Z], as
    [Date.now()] and [Date.parse] return them.  The library functions
    the code calls but does not define ([Date.parse], [new URL], date-fns'
    [parseISO], [Date.prototype.toISOString], [fetch], the wording of the
    errors [NextResponse.json] throws, [uuid]'s random source) are Section
    variables or arguments. *)

From stdpp Require Import base strings list gmap pretty.
From Stdlib Require Import Ascii ZArith Lia.

Local Open Scope Z_scope.

(** ** JavaScript strings *)

Module JS.

(** A string holds its text in UTF-8, one [ascii] per byte, as the JSON
    of a request carries it.  [String.prototype.trim] strips the
    characters of ECMAScript's WhiteSpace and LineTerminator classes from
    both ends; in UTF-8 they take one, two or three bytes.

    One byte: TAB, LF, VT, FF, CR (U+0009 to U+000D) and SPACE. *)
Definition is_white_space (c : ascii) : bool :=
  let n := N_of_ascii c in
  ((9 <=? n) && (n <=? 13))%N || (n =? 32)%N.

(** Two bytes: NO-BREAK SPACE, U+00A0, encoded [C2 A0]. *)
Definition is_white_space2 (a b : ascii) : bool :=
  ((N_of_ascii a =? 194) && (N_of_ascii b =? 160))%N.

(** Three bytes: U+1680 [E1 9A 80]; U+2000 to U+200A [E2 80 80] to
    [E2 80 8A]; the separators U+2028 and U+2029 [E2 80 A8], [E2 80 A9];
    U+202F [E2 80 AF]; U+205F [E2 81 9F]; U+3000 [E3 80 80]; and the
    byte order mark U+FEFF [EF BB BF]. *)
Definition is_white_space3 (a b c : ascii) : bool :=
  let x := N_of_ascii a in
  let y := N_of_ascii b in
  let z := N_of_ascii c in
  ((x =? 225) && (y =? 154) && (z =? 128)
   || (x =? 226) && (y =? 128)
        && ((128 <=? z) && (z <=? 138) || (z =? 168) || (z =? 169)
            || (z =? 175))
   || (x =? 226) && (y =? 129) && (z =? 159)
   || (x =? 227) && (y =? 128) && (z =? 128)
   || (x =? 239) && (y =? 187) && (z =? 191))%N.

(** [trimStart] skips white-space characters while the string begins
    with one. *)
Fixpoint trimStart (s : string) : string :=
  match s with
  | String a (String b (String c rest3 as rest2) as rest1) =>
      if is_white_space a then trimStart rest1
      else if is_white_space2 a b then trimStart rest2
      else if is_white_space3 a b c then trimStart rest3
      else s
  | String a (String b rest2 as rest1) =>
      if is_white_space a then trimStart rest1
      else if is_white_space2 a b then trimStart rest2
      else s
  | String a rest1 => if is_white_space a then trimStart rest1 else s
  | EmptyString => EmptyString
  end.

(** [trimEnd] keeps the string up to the first point from which only
    white space follows.  In UTF-8 no character begins inside another, so
    that point is where the trailing run of white space begins. *)
Fixpoint trimEnd (s : string) : string :=
  match s with
  | EmptyString => EmptyString
  | String c rest =>
      match trimStart s with
      | EmptyString => EmptyString
      | String _ _ => String c (trimEnd rest)
      end
  end.

Definition trim (s : string) : string := trimEnd (trimStart s).

(** Truthiness of a string: every string but the empty one. *)
Definition truthy (s : string) : bool := negb (String.eqb s "").

(** Truthiness of a [string | undefined]. *)
Definition supplied (o : option string) : bool :=
  match o with
  | Some s => truthy s
  | None => false
  end.

(** [!x?.trim()]: [x] is undefined or trims to the empty string. *)
Definition blank (o : option string) : bool :=
  match o with
  | Some s => negb (truthy (trim s))
  | None => true
  end.

(** [x ?? d] *)
Definition nullish (o : option string) (d : string) : string :=
  match o with
  | Some s => s
  | None => d
  end.

(** [s || undefined] *)
Definition or_undefined (s : string) : option string :=
  if truthy s then Some s else None.

(** [String(n)] for an integer [n] below 10^21 in magnitude. *)
Definition String_of_number (n : Z) : string := pretty n.

End JS.

(** ** The relay route *)

Module Relay.
Import JS.

Record PublishRequest := {
  pageId : option string;
  accessToken : option string;
  message : option string;
  link : option string;
  imageUrl : option string;
  scheduledTime : option string;
  mode : option string
}.

Definition META_API_VERSION : string := "v19.0".

(** What [NextResponse.json(body, { status })] carries. *)
Inductive ReplyBody :=
| ErrorBody (error : string)
| IdBody (id : string).

Record Reply := { status : Z; body : ReplyBody }.

Definition failure (code : Z) (text : string) : Reply :=
  {| status := code; body := ErrorBody text |}.

(** What [new URL(text)] holds once the text is parsed, for a URL on
    [https://graph.facebook.com]: the path, the query and the fragment, as
    the properties [pathname], [search] and [hash] give them.  The request
    goes to [pathname] and [search]; the fragment is not sent. *)
Record URL := {
  pathname : string;
  search : string;
  hash : string
}.

(** The outbound call [fetch(targetUrl, { method: "POST", body })]:
    the parsed URL, and [bodyParams] before form encoding. *)
Record Outbound := {
  targetUrl : URL;
  bodyParams : gmap string string
}.

(** [GraphPublishResponse], at its declared type. *)
Inductive GraphError :=
| ErrorString (text : string)
| ErrorObject (message : option string).

Record GraphPublishResponse := {
  id : option string;
  error : option GraphError
}.

(** [{}], what [.catch(() => ({}))] substitutes for an undecodable body. *)
Definition empty_object : GraphPublishResponse :=
  {| id := None; error := None |}.

(** A settled [fetch]: the HTTP status and the outcome of
    [response.json()] ([None] when it rejects). *)
Record UpstreamResponse := {
  upstream_status : Z;
  upstream_json : option GraphPublishResponse
}.

(** [response.ok]: the status is in the range 200-299. *)
Definition ok (r : UpstreamResponse) : bool :=
  (200 <=? upstream_status r) && (upstream_status r <=? 299).

(** A [fetch] either resolves or throws; the thrown value is an [Error]
    with a message ([Some]) or something else ([None]). *)
Inductive FetchOutcome :=
| Resolved (r : UpstreamResponse)
| Rejected (error_message : option string).

(** [Math.floor(ms / 1000)].  A time value is an integer of magnitude at
    most 8.64e15, so the double [ms / 1000] lies within 2^-11 of the
    quotient, never reaches the next integer, and its floor is the
    integer floor of the quotient. *)
Definition epoch_seconds (ms : Z) : Z := ms / 1000.

(** Truthiness of [number | undefined]. *)
Definition truthy_number (n : option Z) : bool :=
  match n with
  | Some z => negb (z =? 0)
  | None => false
  end.

(** [mode && mode !== "now" && mode !== "schedule"] *)
Definition invalid_mode (m : option string) : bool :=
  match m with
  | Some s => truthy s && negb (String.eqb s "now") && negb (String.eqb s "schedule")
  | None => false
  end.

(** The form fields, in the order the handler assigns them. *)
Definition build_params (tok msg : string) (link imageUrl : option string)
    (scheduleTimestamp : option Z) : gmap string string :=
  let isPhoto := supplied imageUrl in
  let p0 : gmap string string :=
    <["message" := trim msg]> (<["access_token" := trim tok]> ∅) in
  let p1 :=
    match link with
    | Some l => if truthy l && negb isPhoto then <["link" := trim l]> p0 else p0
    | None => p0
    end in
  let p2 :=
    match imageUrl with
    | Some u => if isPhoto && truthy u then <["url" := trim u]> p1 else p1
    | None => p1
    end in
  match scheduleTimestamp with
  | Some ts =>
      if truthy_number scheduleTimestamp then
        <["published" := "false"]>
          (<["scheduled_publish_time" := String_of_number ts]> p2)
      else if isPhoto then <["published" := "true"]> p2
      else p2
  | None => if isPhoto then <["published" := "true"]> p2 else p2
  end.

Definition endpoint_of (imageUrl : option string) : string :=
  if supplied imageUrl then "photos" else "feed".

(** The template literal of lines 60-62, the text handed to [new URL]. *)
Definition url_template (pid : string) (imageUrl : option string) : string :=
  "https://graph.facebook.com/" +:+ META_API_VERSION +:+ "/" +:+ pid
    +:+ "/" +:+ endpoint_of imageUrl.

(** [json.error] a string, else [json.error?.message ?? "Meta API error."] *)
Definition graphError (json : GraphPublishResponse) : string :=
  match error json with
  | Some (ErrorString text) => text
  | Some (ErrorObject m) => nullish m "Meta API error."
  | None => "Meta API error."
  end.

(** [response.status || 500] *)
Definition status_or_500 (st : Z) : Z := if st =? 0 then 500 else st.

(** [NextResponse.json(body, { status })] builds a [Response] around the
    JSON text, and the constructor refuses some statuses: it throws a
    RangeError for a status outside 200-599, and a TypeError when a body
    is given with a null body status (204, 205 and 304 in that range). *)
Definition throws_on_status (st : Z) : bool :=
  (st <? 200) || (599 <? st) || (st =? 204) || (st =? 205) || (st =? 304).

Definition missing_fields : Reply :=
  failure 400 "Missing required pageId, accessToken, or message.".

Section Handler.

(** [Date.parse]: [None] stands for [NaN]. *)
Variable Date_parse : string -> option Z.

(** The upstream Graph API behind [fetch]. *)
Variable fetch : Outbound -> FetchOutcome.

(** [new URL]: the parser of the URL standard.  It percent-encodes the
    path, resolves dot segments, and ends the path at the first "?" or
    "#".  It accepts every text the handler gives it, since scheme and
    host are fixed by the template. *)
Variable new_URL : string -> URL.

(** The message of the error [NextResponse.json] throws for a status it
    refuses, as the runtime words it. *)
Variable Response_error : Z -> string.

(** Lines 92-105: the mapping of a resolved upstream response.  The
    failure reply is built inside the [try], so when
    [NextResponse.json] throws on the status, the [catch] of lines
    106-110 answers 500 with the message of that error. *)
Definition map_response (r : UpstreamResponse) : Reply :=
  let json := default empty_object (upstream_json r) in
  let refusal :=
    let st := status_or_500 (upstream_status r) in
    if throws_on_status st then failure 500 (Response_error st)
    else failure st (graphError json) in
  match id json with
  | Some i =>
      if negb (ok r) || negb (truthy i) then refusal
      else {| status := 200; body := IdBody i |}
  | None => refusal
  end.

(** The [try]/[catch] around the call. *)
Definition map_outcome (o : FetchOutcome) : Reply :=
  match o with
  | Resolved r => map_response r
  | Rejected m => failure 500 (nullish m "Unexpected server error.")
  end.

(** Lines 40-56: [inl] is an early return, [inr] the value of
    [scheduleTimestamp] after the block. *)
Definition resolve_schedule (now : Z) (scheduledTime : option string)
    : Reply + option Z :=
  match scheduledTime with
  | Some s =>
      if truthy s then
        match Date_parse s with
        | None => inl (failure 400 "scheduledTime must be an ISO date.")
        | Some parsed =>
            let scheduleTimestamp := epoch_seconds parsed in
            if scheduleTimestamp <=? epoch_seconds now
            then inl (failure 400 "scheduledTime must be in the future.")
            else inr (Some scheduleTimestamp)
        end
      else inr None
  | None => inr None
  end.

(** The handler: the reply, and the outbound calls it made.
    [request] is [None] when [request.json()] throws; [now] is the
    value [Date.now()] returns during validation. *)
Definition POST (now : Z) (request : option PublishRequest)
    : Reply * list Outbound :=
  match request with
  | None => (failure 400 "Invalid JSON payload.", [])
  | Some payload =>
      match pageId payload, accessToken payload, message payload with
      | Some pid, Some tok, Some msg =>
          if negb (truthy (trim pid)) || negb (truthy (trim tok))
             || negb (truthy (trim msg))
          then (missing_fields, [])
          else if invalid_mode (mode payload)
          then (failure 400 "Invalid mode provided.", [])
          else
            match resolve_schedule now (scheduledTime payload) with
            | inl reply => (reply, [])
            | inr scheduleTimestamp =>
                let call :=
                  {| targetUrl := new_URL (url_template pid (imageUrl payload));
                     bodyParams :=
                       build_params tok msg (link payload)
                                    (imageUrl payload) scheduleTimestamp |} in
                (map_outcome (fetch call), [call])
            end
      | _, _, _ => (missing_fields, [])
      end
  end.

(** The request as the handler would forward it once validation passed. *)
Definition call_of (payload : PublishRequest) (scheduleTimestamp : option Z)
    : Outbound :=
  {| targetUrl :=
       new_URL (url_template (nullish (pageId payload) "") (imageUrl payload));
     bodyParams :=
       build_params (nullish (accessToken payload) "")
                    (nullish (message payload) "")
                    (link payload) (imageUrl payload) scheduleTimestamp |}.

End Handler.

(** The three required fields survive the check of line 29. *)
Definition required_present (payload : PublishRequest) : bool :=
  negb (blank (pageId payload)) && negb (blank (accessToken payload))
    && negb (blank (message payload)).

(** The same request with another [mode]. *)
Definition with_mode (m : option string) (payload : PublishRequest)
    : PublishRequest :=
  {| pageId := pageId payload;
     accessToken := accessToken payload;
     message := message payload;
     link := link payload;
     imageUrl := imageUrl payload;
     scheduledTime := scheduledTime payload;
     mode := m |}.

End Relay.

(** ** The dashboard controller *)

Module Dashboard.
Import JS.

(** ["now" | "schedule"] *)
Inductive PublishMode := now | schedule.

#[global] Instance PublishMode_eq_dec : EqDecision PublishMode.
Proof. solve_decision. Defined.

Module PostTemplate.
Record t := {
  id : string;
  name : string;
  message : string;
  link : option string;
  imageUrl : option string
}.
End PostTemplate.

(** [{ id?: string; error?: string }] *)
Module Response.
Record t := { id : option string; error : option string }.
End Response.

Inductive Status := pending | success | error.

Module QueuedPost.
Record t := {
  id : string;
  message : string;
  link : option string;
  imageUrl : option string;
  mode : PublishMode;
  scheduledTime : option string;
  createdAt : string;
  status : Status;
  response : option Response.t
}.
End QueuedPost.

Module PublishPayload.
Record t := {
  pageId : string;
  accessToken : string;
  message : string;
  link : option string;
  imageUrl : option string;
  scheduledTime : option string;
  mode : PublishMode
}.
End PublishPayload.

(** What the promise of [publishToMeta] resolves to:
    [{ ok: true; data: { id } } | { ok: false; data: { error? } }]. *)
Module RelayResult.
Record t := { ok : bool; data : Response.t }.
End RelayResult.

(** The [useState] cells of [MetaAutomationDashboard]. *)
Record State := {
  pageId : string;
  accessToken : string;
  mode : PublishMode;
  message : string;
  link : string;
  imageUrl : string;
  scheduledTime : string;
  templates : list PostTemplate.t;
  templateName : string;
  queue : list QueuedPost.t;
  error_banner : option string;    (* the cell [error] *)
  success_banner : option string   (* the cell [success] *)
}.

(** The calls a handler makes, in order: the state setters, and
    [startTransition], whose callback issues [publishToMeta(payload)] for
    the queue entry [queuedId]. *)
Inductive Action :=
| setPageId (value : string)
| setAccessToken (value : string)
| setMode (value : PublishMode)
| setMessage (value : string)
| setLink (value : string)
| setImageUrl (value : string)
| setScheduledTime (value : string)
| setTemplates (value : list PostTemplate.t)
| setTemplateName (value : string)
| setError (value : option string)
| setSuccess (value : option string)
| setQueue_prepend (queued : QueuedPost.t)
| setQueue_settle (queuedId : string) (result : RelayResult.t)
| startTransition (payload : PublishPayload.t) (queuedId : string).

(** [{ ...post, status: result.ok ? "success" : "error", response: result.data }] *)
Definition settled (result : RelayResult.t) (post : QueuedPost.t) : QueuedPost.t :=
  {| QueuedPost.id := QueuedPost.id post;
     QueuedPost.message := QueuedPost.message post;
     QueuedPost.link := QueuedPost.link post;
     QueuedPost.imageUrl := QueuedPost.imageUrl post;
     QueuedPost.mode := QueuedPost.mode post;
     QueuedPost.scheduledTime := QueuedPost.scheduledTime post;
     QueuedPost.createdAt := QueuedPost.createdAt post;
     QueuedPost.status := if RelayResult.ok result then success else error;
     QueuedPost.response := Some (RelayResult.data result) |}.

(** [prev.map((post) => post.id === queued.id ? {...} : post)] *)
Definition settle_queue (queuedId : string) (result : RelayResult.t)
    (prev : list QueuedPost.t) : list QueuedPost.t :=
  (fun post =>
     if String.eqb (QueuedPost.id post) queuedId then settled result post else post)
  <$> prev.

(** The effect of one setter on the cells.  [startTransition] changes no
    cell by itself: its relay call settles later, through [settle]. *)
Definition reduce (st : State) (a : Action) : State :=
  let '{| pageId := p; accessToken := t; mode := m; message := msg; link := l;
          imageUrl := i; scheduledTime := s; templates := tpls;
          templateName := n; queue := q; error_banner := e;
          success_banner := ok |} := st in
  match a with
  | setPageId v => Build_State v t m msg l i s tpls n q e ok
  | setAccessToken v => Build_State p v m msg l i s tpls n q e ok
  | setMode v => Build_State p t v msg l i s tpls n q e ok
  | setMessage v => Build_State p t m v l i s tpls n q e ok
  | setLink v => Build_State p t m msg v i s tpls n q e ok
  | setImageUrl v => Build_State p t m msg l v s tpls n q e ok
  | setScheduledTime v => Build_State p t m msg l i v tpls n q e ok
  | setTemplates v => Build_State p t m msg l i s v n q e ok
  | setTemplateName v => Build_State p t m msg l i s tpls v q e ok
  | setError v => Build_State p t m msg l i s tpls n q v ok
  | setSuccess v => Build_State p t m msg l i s tpls n q e v
  | setQueue_prepend queued => Build_State p t m msg l i s tpls n (queued :: q) e ok
  | setQueue_settle queuedId result =>
      Build_State p t m msg l i s tpls n (settle_queue queuedId result q) e ok
  | startTransition _ _ => st
  end.

Definition run (st : State) (actions : list Action) : State :=
  foldl reduce st actions.

(** The relay calls a handler issued, in order. *)
Definition relay_calls (actions : list Action) : list (PublishPayload.t * string) :=
  omap (fun a => match a with
                 | startTransition payload queuedId => Some (payload, queuedId)
                 | _ => None
                 end) actions.

(** The queue entries a handler created, in order. *)
Definition created_entries (actions : list Action) : list QueuedPost.t :=
  omap (fun a => match a with
                 | setQueue_prepend queued => Some queued
                 | _ => None
                 end) actions.

(** [`Loaded template "${name}".`] *)
Definition loaded_message (name : string) : string :=
  let quote := String (ascii_of_nat 34) EmptyString in
  "Loaded template " +:+ quote +:+ name +:+ quote +:+ ".".

Definition applyTemplate (template : PostTemplate.t) : list Action :=
  [ setMessage (PostTemplate.message template);
    setLink (nullish (PostTemplate.link template) "");
    setImageUrl (nullish (PostTemplate.imageUrl template) "");
    setSuccess (Some (loaded_message (PostTemplate.name template)));
    setError None ].

(** [handleTemplateSave], in a render whose cells are [st]; [fresh] is the
    value [uuid()] returns. *)
Definition handleTemplateSave (fresh : string) (st : State) : list Action :=
  if negb (truthy (trim (templateName st))) || negb (truthy (trim (message st)))
  then [ setError (Some "Template needs a name and message.") ]
  else
    let newTemplate :=
      {| PostTemplate.id := fresh;
         PostTemplate.name := trim (templateName st);
         PostTemplate.message := message st;
         PostTemplate.link := or_undefined (trim (link st));
         PostTemplate.imageUrl := or_undefined (trim (imageUrl st)) |} in
    [ setTemplates
        (filter (fun tpl => PostTemplate.name tpl <> PostTemplate.name newTemplate)
                (templates st) ++ [newTemplate]);
      setTemplateName "";
      setSuccess (Some "Template saved.");
      setError None ].

Definition handleTemplateDelete (id : string) (st : State) : list Action :=
  [ setTemplates (filter (fun tpl => PostTemplate.id tpl <> id) (templates st)) ].

(** The continuation of the transition, once [publishToMeta] resolved. *)
Definition settle (queuedId : string) (result : RelayResult.t) : list Action :=
  [ setQueue_settle queuedId result;
    setError (if RelayResult.ok result then None
              else Some (nullish (Response.error (RelayResult.data result))
                                 "Meta API error.")) ].

(** The callback passed to [startTransition], resumed after
    [await publishToMeta(payload)] returned [result]. *)
Definition resume (a : Action) (result : RelayResult.t) : list Action :=
  match a with
  | startTransition _ queuedId => settle queuedId result
  | _ => []
  end.

Section Clock.

(** date-fns' [parseISO] followed by [getTime]: [None] is Invalid Date. *)
Variable parseISO : string -> option Z.

(** [new Date(ms).toISOString()] *)
Variable toISOString : Z -> string.

(** date-fns' [isFuture(date)]: [+date > Date.now()]; an invalid date is
    NaN, which compares false. *)
Definition isFuture (date : option Z) (instant : Z) : bool :=
  match date with
  | Some t => instant <? t
  | None => false
  end.

(** The body of the [useMemo] callback, run at [instant]. *)
Definition compute_canSchedule (m : PublishMode) (when : string) (instant : Z)
    : bool :=
  match m with
  | now => true
  | schedule => isFuture (parseISO when) instant
  end.

(** A [useMemo] cell: the dependency array it was computed for, and the
    value. *)
Record Memo := { deps : PublishMode * string; value : bool }.

(** [useMemo(..., [mode, scheduledTime])] during a render at [instant]:
    the callback runs on the first render and when a dependency changed;
    otherwise the cached value is returned. *)
Definition useMemo_canSchedule (instant : Z) (st : State) (cell : option Memo)
    : Memo :=
  let recomputed :=
    {| deps := (mode st, scheduledTime st);
       value := compute_canSchedule (mode st) (scheduledTime st) instant |} in
  match cell with
  | Some m => if decide (deps m = (mode st, scheduledTime st)) then m else recomputed
  | None => recomputed
  end.

(** A rendered component: the cells and the memoised [canSchedule] its
    handlers close over. *)
Record Rendered := { cells : State; canSchedule_memo : Memo }.

Definition canSchedule (r : Rendered) : bool := value (canSchedule_memo r).

(** The first render, at [instant]; [defaultScheduled] is the value of
    [defaultScheduledIso()]. *)
Definition mount (instant : Z) (defaultScheduled : string) : Rendered :=
  let st :=
    {| pageId := ""; accessToken := ""; mode := now; message := ""; link := "";
       imageUrl := ""; scheduledTime := defaultScheduled; templates := [];
       templateName := ""; queue := []; error_banner := None;
       success_banner := None |} in
  {| cells := st; canSchedule_memo := useMemo_canSchedule instant st None |}.

(** The setters of [actions] are applied and the component renders again,
    at [instant]. *)
Definition rerender (instant : Z) (r : Rendered) (actions : list Action)
    : Rendered :=
  let st := run (cells r) actions in
  {| cells := st;
     canSchedule_memo := useMemo_canSchedule instant st (Some (canSchedule_memo r)) |}.

(** [enqueuePost], called at [instant] from the render [r]; [fresh] is the
    value [uuid()] returns. *)
Definition enqueuePost (fresh : string) (instant : Z) (r : Rendered)
    : list Action :=
  let st := cells r in
  if negb (truthy (trim (pageId st))) || negb (truthy (trim (accessToken st)))
     || negb (truthy (trim (message st)))
  then [ setError (Some "Page ID, access token, and message are required.") ]
  else if bool_decide (mode st = schedule) && negb (canSchedule r)
  then [ setError (Some "Scheduled time must be in the future.") ]
  else
    let payload :=
      {| PublishPayload.pageId := trim (pageId st);
         PublishPayload.accessToken := trim (accessToken st);
         PublishPayload.message := trim (message st);
         PublishPayload.link := or_undefined (trim (link st));
         PublishPayload.imageUrl := or_undefined (trim (imageUrl st));
         PublishPayload.scheduledTime :=
           if bool_decide (mode st = schedule) then Some (scheduledTime st) else None;
         PublishPayload.mode := mode st |} in
    let queued :=
      {| QueuedPost.id := fresh;
         QueuedPost.message := PublishPayload.message payload;
         QueuedPost.link := PublishPayload.link payload;
         QueuedPost.imageUrl := PublishPayload.imageUrl payload;
         QueuedPost.mode := mode st;
         QueuedPost.scheduledTime := PublishPayload.scheduledTime payload;
         QueuedPost.createdAt := toISOString instant;
         QueuedPost.status := pending;
         QueuedPost.response := None |} in
    [ setQueue_prepend queued;
      setError None;
      setSuccess (Some (if bool_decide (mode st = schedule)
                        then "Scheduled post queued."
                        else "Immediate post queued."));
      startTransition payload (QueuedPost.id queued) ].

End Clock.

(** The composer edits between two saves: the name is typed again (a save
    clears it) and the message replaced. *)
Definition retype (n msg : string) : list Action :=
  [ setTemplateName n; setMessage msg ].

End Dashboard.

(** ** Sample requests and upstreams *)

Module RelaySamples.
Import JS Relay.

(** A finite excerpt of the graph of [Date.parse], enough to run the
    handler: two ISO instants it parses, and NaN for the other strings
    used below. *)
Definition Date_parse_excerpt (s : string) : option Z :=
  if String.eqb s "2030-01-01T00:00:00.000Z" then Some 1893456000000
  else if String.eqb s "2020-01-01T00:00:00.000Z" then Some 1577836800000
  else None.

(** 2026-01-01T00:00:00.000Z *)
Definition clock : Z := 1767225600000.

(** A finite excerpt of the graph of [new URL]: the three texts the
    samples below make the handler parse.  A page id of digits leaves the
    templated path as it is; in "123#" the "#" ends the path and opens the
    fragment.  Texts outside the excerpt get the empty components. *)
Definition new_URL_excerpt (text : string) : URL :=
  if String.eqb text "https://graph.facebook.com/v19.0/123/feed"
  then {| pathname := "/v19.0/123/feed"; search := ""; hash := "" |}
  else if String.eqb text "https://graph.facebook.com/v19.0/123/photos"
  then {| pathname := "/v19.0/123/photos"; search := ""; hash := "" |}
  else if String.eqb text "https://graph.facebook.com/v19.0/123#/photos"
  then {| pathname := "/v19.0/123"; search := ""; hash := "#/photos" |}
  else {| pathname := ""; search := ""; hash := "" |}.

(** The messages of the errors [NextResponse.json] throws under Node.js:
    the TypeError for a null body status, the RangeError for a status out
    of range. *)
Definition Response_error_excerpt (st : Z) : string :=
  if (st <? 200) || (599 <? st)
  then "init[" +:+ String (ascii_of_nat 34) "status"
         +:+ String (ascii_of_nat 34)
               "] must be in the range of 200 to 599, inclusive."
  else "Response constructor: Invalid response status code "
         +:+ String_of_number st.

(** An upstream that accepts every post under the id 999. *)
Definition graph_accepts (call : Outbound) : FetchOutcome :=
  Resolved {| upstream_status := 200;
              upstream_json := Some {| id := Some "999"; error := None |} |}.

(** An upstream that answers 502 with an HTML error page. *)
Definition graph_down (call : Outbound) : FetchOutcome :=
  Resolved {| upstream_status := 502; upstream_json := None |}.

(** An upstream that answers 204 No Content, hence with an empty body. *)
Definition graph_no_content (call : Outbound) : FetchOutcome :=
  Resolved {| upstream_status := 204; upstream_json := None |}.

Definition hello : PublishRequest :=
  {| pageId := Some "123"; accessToken := Some "tok"; message := Some "hello";
     link := None; imageUrl := None; scheduledTime := None;
     mode := Some "now" |}.

Definition hello_at (when : string) (m : option string) : PublishRequest :=
  {| pageId := Some "123"; accessToken := Some "tok"; message := Some "hello";
     link := Some "https://example.com/a"; imageUrl := None;
     scheduledTime := Some when; mode := m |}.

Definition photo : PublishRequest :=
  {| pageId := Some "123"; accessToken := Some " tok "; message := Some "hello";
     link := Some "https://example.com/a";
     imageUrl := Some "https://example.com/a.png";
     scheduledTime := None; mode := None |}.

Definition whitespace_page : PublishRequest :=
  {| pageId := Some "   "; accessToken := Some "tok"; message := Some "hello";
     link := None; imageUrl := None; scheduledTime := None; mode := None |}.

(** U+00A0, a no-break space, and U+3000, an ideographic space, in UTF-8. *)
Definition nbsp : string :=
  String (ascii_of_nat 194) (String (ascii_of_nat 160) EmptyString).

Definition ideographic_space : string :=
  String (ascii_of_nat 227)
    (String (ascii_of_nat 128) (String (ascii_of_nat 128) EmptyString)).

(** A message of no-break and ideographic spaces only. *)
Definition no_break_message : PublishRequest :=
  {| pageId := Some "123"; accessToken := Some "tok";
     message := Some (nbsp +:+ " " +:+ ideographic_space);
     link := None; imageUrl := None; scheduledTime := None; mode := None |}.

(** A photo post whose page id ends in "#". *)
Definition photo_hash : PublishRequest :=
  {| pageId := Some "123#"; accessToken := Some "tok"; message := Some "hello";
     link := None; imageUrl := Some "https://example.com/a.png";
     scheduledTime := None; mode := None |}.

Definition photo_call : Outbound :=
  {| targetUrl :=
       {| pathname := "/v19.0/123/photos"; search := ""; hash := "" |};
     bodyParams :=
       <["published" := "true"]>
         (<["url" := "https://example.com/a.png"]>
            (<["message" := "hello"]> (<["access_token" := "tok"]> ∅))) |}.

Definition scheduled_call : Outbound :=
  {| targetUrl :=
       {| pathname := "/v19.0/123/feed"; search := ""; hash := "" |};
     bodyParams :=
       <["published" := "false"]>
         (<["scheduled_publish_time" := "1893456000"]>
            (<["link" := "https://example.com/a"]>
               (<["message" := "hello"]> (<["access_token" := "tok"]> ∅)))) |}.

End RelaySamples.

(** ** Sample sessions of the dashboard *)

Module DashboardSamples.
Import JS Dashboard.

(** Excerpts of the graphs of [parseISO] and [toISOString], for a browser
    whose time zone is UTC. *)
Definition parseISO_excerpt (s : string) : option Z :=
  if String.eqb s "2030-01-01T00:00" then Some 1893456000000 else None.

Definition toISOString_excerpt (ms : Z) : string :=
  if ms =? 1893456060000 then "2030-01-01T00:01:00.000Z"
  else if ms =? 1893452520000 then "2029-12-31T23:02:00.000Z"
  else "".

(** The page is loaded at 2029-12-31T23:00Z; the scheduled time defaults to
    one hour later. *)
Definition loaded : Rendered :=
  mount parseISO_excerpt 1893452400000 "2030-01-01T00:00".

(** Credentials and message are typed in the first half minute. *)
Definition typed : Rendered :=
  rerender parseISO_excerpt 1893452430000
    (rerender parseISO_excerpt 1893452420000
       (rerender parseISO_excerpt 1893452410000 loaded [setPageId "123"])
       [setAccessToken "tok"])
    [setMessage " hello "].

(** "schedule" is chosen at 23:01. *)
Definition chosen : Rendered :=
  rerender parseISO_excerpt 1893452460000 typed [setMode schedule].

(** The link is filled in at 00:00:30, after the scheduled time passed. *)
Definition late : Rendered :=
  rerender parseISO_excerpt 1893456030000 chosen [setLink "https://example.com/a"].

(** A pending immediate post. *)
Definition entry (id msg : string) : QueuedPost.t :=
  {| QueuedPost.id := id; QueuedPost.message := msg; QueuedPost.link := None;
     QueuedPost.imageUrl := None; QueuedPost.mode := now;
     QueuedPost.scheduledTime := None;
     QueuedPost.createdAt := "2029-12-31T23:02:00.000Z";
     QueuedPost.status := pending; QueuedPost.response := None |}.

(** Two pending entries, the newer first. *)
Definition two_pending : State :=
  run (cells typed) [ setQueue_prepend (entry "id-a" "first");
                      setQueue_prepend (entry "id-b" "second") ].

Definition published : RelayResult.t :=
  {| RelayResult.ok := true;
     RelayResult.data := {| Response.id := Some "999"; Response.error := None |} |}.

(** A composer holding the name " A " and the message "X". *)
Definition naming : State :=
  run (cells typed) [ setTemplateName " A "; setMessage "X" ].

End DashboardSamples.

(** ** Notions used to state properties *)

Module Notions.
Import JS Dashboard.

(** The rest of [s] after its first character, when that character is
    white space. *)
Definition skip_white_space (s : string) : option string :=
  match s with
  | String a rest1 =>
      if is_white_space a then Some rest1
      else
        match rest1 with
        | String b rest2 =>
            if is_white_space2 a b then Some rest2
            else
              match rest2 with
              | String c rest3 =>
                  if is_white_space3 a b c then Some rest3 else None
              | EmptyString => None
              end
        | EmptyString => None
        end
  | EmptyString => None
  end.

(** A string without leading white space. *)
Definition starts_clean (s : string) : Prop := skip_white_space s = None.

(** The names of the library. *)
Definition names (l : list PostTemplate.t) : list string :=
  PostTemplate.name <$> l.

(** A template as [handleTemplateSave] writes it: a trimmed, non-empty
    name, a non-blank message, and a link and an image URL that are absent
    or trimmed and non-empty. *)
Definition normal_field (o : option string) : Prop :=
  forall text, o = Some text -> text <> "" /\ trim text = text.

Definition normal (tpl : PostTemplate.t) : Prop :=
  PostTemplate.name tpl <> ""
  /\ trim (PostTemplate.name tpl) = PostTemplate.name tpl
  /\ trim (PostTemplate.message tpl) <> ""
  /\ normal_field (PostTemplate.link tpl)
  /\ normal_field (PostTemplate.imageUrl tpl).

End Notions.

(** ** Event handlers of the cards, and the feedback banner *)

Module Events.
Import JS Dashboard.

(** [resetFeedback], passed to the cards as [onFocus]. *)
Definition resetFeedback : list Action := [ setError None; setSuccess None ].

(** "Schedule": [onFocus(); setMode("schedule");
    setScheduledTime(defaultScheduledIso())]; [defaultScheduled] is the
    value [defaultScheduledIso()] returns at the click. *)
Definition click_schedule (defaultScheduled : string) : list Action :=
  resetFeedback ++ [ setMode schedule; setScheduledTime defaultScheduled ].

(** The submit button: [onFocus(); onSubmit()]. *)
Definition click_submit (toISOString : Z -> string) (fresh : string)
    (instant : Z) (r : Rendered) : list Action :=
  resetFeedback ++ enqueuePost toISOString fresh instant r.

(** Whether a setter changes a dependency of the [canSchedule] memo. *)
Definition edits_schedule (a : Action) : bool :=
  match a with
  | setMode _ | setScheduledTime _ => true
  | _ => false
  end.

(** A run of renders: each step applies its setters and renders at its
    instant. *)
Definition renders (parseISO : string -> option Z) (r : Rendered)
    (steps : list (Z * list Action)) : Rendered :=
  foldl (fun r step => rerender parseISO step.1 r step.2) r steps.

(** The memo cell was computed for the current mode and scheduled time, as
    it is after every render. *)
Definition memo_current (r : Rendered) : Prop :=
  deps (canSchedule_memo r) = (mode (cells r), scheduledTime (cells r)).

(** The two colour schemes of the banner. *)
Inductive Tone := red | emerald.

(** [FeedbackBanner]: [None] is [return null]; otherwise the colour scheme
    ([error ? red : emerald]) and the text ([error ?? success]). *)
Definition FeedbackBanner (error success : option string)
    : option (Tone * string) :=
  if negb (supplied error) && negb (supplied success) then None
  else Some (if supplied error then red else emerald,
             match error with
             | Some text => text
             | None => nullish success ""
             end).

Definition banner (st : State) : option (Tone * string) :=
  FeedbackBanner (error_banner st) (success_banner st).

End Events.

(** ** The client side of the relay call *)

Module Client.
Import JS Dashboard.

(** What [response.json()] yields on the reply of the relay: one of the two
    bodies the relay sends, or a rejection (an [Error] with a message) when
    the body is not JSON. *)
Inductive Body :=
| decoded (json : Relay.ReplyBody)
| undecodable (message : string).

Record HttpResponse := {
  http_status : Z;
  statusText : string;
  http_body : Body
}.

(** The promise of [fetch("/api/meta/publish", ...)]: a response, or a
    rejection with an [Error]. *)
Inductive Fetched :=
| responded (response : HttpResponse)
| rejected (message : string).

(** [response.ok] *)
Definition response_ok (response : HttpResponse) : bool :=
  (200 <=? http_status response) && (http_status response <=? 299).

(** [publishToMeta]; [fetch] stands for the call with the serialised
    payload. *)
Definition publishToMeta (fetch : PublishPayload.t -> Fetched)
    (payload : PublishPayload.t) : RelayResult.t :=
  match fetch payload with
  | responded response =>
      if response_ok response then
        match http_body response with
        | decoded (Relay.IdBody i) =>
            {| RelayResult.ok := true;
               RelayResult.data := {| Response.id := Some i; Response.error := None |} |}
        | decoded (Relay.ErrorBody text) =>
            {| RelayResult.ok := true;
               RelayResult.data := {| Response.id := None; Response.error := Some text |} |}
        | undecodable message =>
            {| RelayResult.ok := false;
               RelayResult.data := {| Response.id := None; Response.error := Some message |} |}
        end
      else
        {| RelayResult.ok := false;
           RelayResult.data :=
             {| Response.id := None;
                Response.error :=
                  Some match http_body response with
                       | decoded (Relay.ErrorBody text) => text
                       | _ => statusText response
                       end |} |}
  | rejected message =>
      {| RelayResult.ok := false;
         RelayResult.data := {| Response.id := None; Response.error := Some message |} |}
  end.

Definition mode_literal (m : PublishMode) : string :=
  match m with
  | now => "now"
  | schedule => "schedule"
  end.

(** [JSON.stringify(payload)] read back by [request.json()]: the keys whose
    value is [undefined] are dropped. *)
Definition to_request (payload : PublishPayload.t) : Relay.PublishRequest :=
  {| Relay.pageId := Some (PublishPayload.pageId payload);
     Relay.accessToken := Some (PublishPayload.accessToken payload);
     Relay.message := Some (PublishPayload.message payload);
     Relay.link := PublishPayload.link payload;
     Relay.imageUrl := PublishPayload.imageUrl payload;
     Relay.scheduledTime := PublishPayload.scheduledTime payload;
     Relay.mode := Some (mode_literal (PublishPayload.mode payload)) |}.

Section Route.

Variable Date_parse : string -> option Z.
Variable graph : Relay.Outbound -> Relay.FetchOutcome.
Variable new_URL : string -> Relay.URL.
Variable Response_error : Z -> string.

(** The reason phrase the transport attaches to a status. *)
Variable reason_phrase : Z -> string.

(** The relay's reply to the serialised payload, at the server instant
    [server_now]. *)
Definition relay_reply (server_now : Z) (payload : PublishPayload.t) : Relay.Reply :=
  (Relay.POST Date_parse graph new_URL Response_error server_now
              (Some (to_request payload))).1.

(** [fetch] when the route is reached and its reply delivered. *)
Definition route (server_now : Z) (payload : PublishPayload.t) : Fetched :=
  let reply := relay_reply server_now payload in
  responded {| http_status := Relay.status reply;
               statusText := reason_phrase (Relay.status reply);
               http_body := decoded (Relay.body reply) |}.

(** A whole transition: the relay call of [a] through the route, then the
    resumed callback. *)
Definition transition (server_now : Z) (a : Action) : list Action :=
  match a with
  | startTransition payload _ =>
      resume a (publishToMeta (route server_now) payload)
  | _ => []
  end.

End Route.

End Client.

(** ** [usePersistentState] *)

Module Persistence.
Import JS.

(** [window.localStorage] *)
Abbreviation Storage := (gmap string string).

Section Hook.

Context {T : Type}.

(** [JSON.parse] at the type of the cell ([None]: it throws) and
    [JSON.stringify]. *)
Variable JSON_parse : string -> option T.
Variable JSON_stringify : T -> string.

(** [Object.is], by which React decides whether a state or a dependency
    changed. *)
Variable Object_is : T -> T -> bool.

(** Whether [setItem(key, value)] fits the quota of the store. *)
Variable quota : Storage -> string -> string -> bool.

(** [setItem]: [None] when it throws. *)
Definition setItem (store : Storage) (key value : string) : option Storage :=
  if quota store key value then Some (<[key := value]> store) else None.

(** The second effect: [try { setItem(key, JSON.stringify(value)) } catch {}]. *)
Definition persist (key : string) (value : T) (store : Storage) : Storage :=
  match setItem store key (JSON_stringify value) with
  | Some store' => store'
  | None => store
  end.

(** The first effect: the value handed to [setValue], if any, and the
    store it leaves. *)
Definition restore (key : string) (store : Storage) : option T * Storage :=
  match store !! key with
  | Some serialized =>
      if truthy serialized then
        match JSON_parse serialized with
        | Some parsed => (Some parsed, store)
        | None => (None, delete key store)
        end
      else (None, store)
  | None => (None, store)
  end.

(** The cell and the store once the component settled. *)
Record Hook := { value : T; storage : Storage }.

(** Mounting: both effects run after the first render, in order, the
    second one with the [initialValue] of that render; a value handed to
    [setValue] that is not [initialValue] renders again, and the second
    effect runs for it. *)
Definition mount (key : string) (initialValue : T) (store : Storage) : Hook :=
  let (pending, store1) := restore key store in
  let store2 := persist key initialValue store1 in
  match pending with
  | Some parsed =>
      if Object_is parsed initialValue
      then {| value := initialValue; storage := store2 |}
      else {| value := parsed; storage := persist key parsed store2 |}
  | None => {| value := initialValue; storage := store2 |}
  end.

(** [setValue(next)] and the render that follows. *)
Definition setValue (key : string) (next : T) (h : Hook) : Hook :=
  if Object_is next (value h) then h
  else {| value := next; storage := persist key next (storage h) |}.

(** [Object.is] holds of identical values only. *)
Definition Object_is_sound : Prop := forall a b, Object_is a b = true -> a = b.

(** Every [setItem] fits. *)
Definition roomy : Prop := forall store key value, quota store key value = true.

(** The store holds the serialised value of the cell. *)
Definition synced (key : string) (h : Hook) : Prop :=
  storage h !! key = Some (JSON_stringify (value h)).

End Hook.

End Persistence.

(** ** Sample data for the events, the client and the store *)

Module MoreSamples.
Import JS Dashboard DashboardSamples Events Client Persistence.

(** HTTP reason phrases, for the statuses used below. *)
Definition reason_phrase_excerpt (code : Z) : string :=
  if code =? 200 then "OK"
  else if code =? 400 then "Bad Request"
  else if code =? 500 then "Internal Server Error"
  else "".

(** An upstream that answers 200 with an empty JSON object. *)
Definition graph_empty (call : Relay.Outbound) : Relay.FetchOutcome :=
  Relay.Resolved {| Relay.upstream_status := 200;
                    Relay.upstream_json := Some Relay.empty_object |}.

(** An upstream whose connection is reset. *)
Definition graph_unreachable (call : Relay.Outbound) : Relay.FetchOutcome :=
  Relay.Rejected (Some "fetch failed").

Definition quote : string := String (ascii_of_nat 34) EmptyString.

(** [JSON.stringify] and [JSON.parse] on the strings used below, which need
    no escape: the text between double quotes. *)
Definition stringify_excerpt (text : string) : string := quote +:+ text +:+ quote.

Definition parse_excerpt (serialized : string) : option string :=
  if String.eqb serialized (stringify_excerpt "123") then Some "123"
  else if String.eqb serialized (stringify_excerpt "") then Some ""
  else if String.eqb serialized (stringify_excerpt "456") then Some "456"
  else None.

Definition unlimited (store : Storage) (key value : string) : bool := true.

Definition full (store : Storage) (key value : string) : bool := false.

(** A store left by an earlier session, with a damaged entry. *)
Definition earlier_store : Storage :=
  <["metaPageId" := stringify_excerpt "123"]>
    (<["metaAccessToken" := "{not json"]> ∅).

Definition tpl (id name message : string) : PostTemplate.t :=
  {| PostTemplate.id := id; PostTemplate.name := name;
     PostTemplate.message := message; PostTemplate.link := None;
     PostTemplate.imageUrl := None |}.

(** A composer with two saved templates, about to save a third. *)
Definition library : State :=
  run (cells typed)
      [ setTemplates [ tpl "t-1" "Launch" "We are live"; tpl "t-2" "Sale" "20% off" ];
        setTemplateName " Promo "; setMessage "Hello";
        setLink " https://example.com/a " ].

(** The call the relay makes for [RelaySamples.hello]. *)
Definition hello_call : Relay.Outbound :=
  {| Relay.targetUrl :=
       {| Relay.pathname := "/v19.0/123/feed"; Relay.search := "";
          Relay.hash := "" |};
     Relay.bodyParams := <["message" := "hello"]> (<["access_token" := "tok"]> ∅) |}.

(** [Date.parse] on the value of the datetime input, for a server whose
    time zone is UTC. *)
Definition Date_parse_local (s : string) : option Z :=
  if String.eqb s "2030-01-01T00:00" then Some 1893456000000 else None.

(** What [typed] submits, in "now" mode. *)
Definition payload_now : PublishPayload.t :=
  {| PublishPayload.pageId := "123"; PublishPayload.accessToken := "tok";
     PublishPayload.message := "hello"; PublishPayload.link := None;
     PublishPayload.imageUrl := None; PublishPayload.scheduledTime := None;
     PublishPayload.mode := now |}.

(** What [late] submits, in "schedule" mode. *)
Definition payload_late : PublishPayload.t :=
  {| PublishPayload.pageId := "123"; PublishPayload.accessToken := "tok";
     PublishPayload.message := "hello";
     PublishPayload.link := Some "https://example.com/a";
     PublishPayload.imageUrl := None;
     PublishPayload.scheduledTime := Some "2030-01-01T00:00";
     PublishPayload.mode := schedule |}.

(** A relay failure as the client reads it. *)
Definition refused : RelayResult.t :=
  {| RelayResult.ok := false;
     RelayResult.data := {| Response.id := None; Response.error := Some "Meta API error." |} |}.

End MoreSamples.

(** ** Properties of the relay *)

Module RelayFacts.
Import JS Relay.

Lemma truthy_spec (s : string) : truthy s = true <-> s <> "".
Proof.
  unfold truthy. destruct (String.eqb_spec s "") as [->|Hne]; simpl.
  - split; [discriminate | congruence].
  - split; auto.
Qed.

Lemma blank_false (o : option string) :
  blank o = false <-> exists s, o = Some s /\ truthy (trim s) = true.
Proof.
  destruct o as [s|]; simpl.
  - rewrite negb_false_iff. split.
    + intros H. exists s. auto.
    + intros (s' & [= <-] & H). exact H.
  - split; [discriminate | intros (s & [=] & _)].
Qed.

(** From [required_present payload = true]: the three fields are strings
    that do not trim to the empty string. *)
Ltac required_fields H :=
  unfold required_present in H;
  let Hpt := fresh in
  apply andb_true_iff in H as [Hpt ?Hmsg0];
  apply andb_true_iff in Hpt as [?Hpid0 ?Htok0];
  match goal with
  | Hp : negb (blank (pageId _)) = true,
    Ht : negb (blank (accessToken _)) = true,
    Hm : negb (blank (message _)) = true |- _ =>
      apply negb_true_iff, blank_false in Hp as (?pid & ?Hpid & ?Hpid');
      apply negb_true_iff, blank_false in Ht as (?tok & ?Htok & ?Htok');
      apply negb_true_iff, blank_false in Hm as (?msg & ?Hmsg & ?Hmsg')
  end.

Section WithEnvironment.

Variable Date_parse : string -> option Z.
Variable fetch : Outbound -> FetchOutcome.
Variable new_URL : string -> URL.
Variable Response_error : Z -> string.

#[local] Abbreviation POST :=
  (Relay.POST Date_parse fetch new_URL Response_error).
#[local] Abbreviation resolve_schedule := (Relay.resolve_schedule Date_parse).
#[local] Abbreviation call_of := (Relay.call_of new_URL).
#[local] Abbreviation map_response := (Relay.map_response Response_error).
#[local] Abbreviation map_outcome := (Relay.map_outcome Response_error).

Lemma POST_validated now payload :
  required_present payload = true ->
  invalid_mode (mode payload) = false ->
  POST now (Some payload) =
    match resolve_schedule now (scheduledTime payload) with
    | inl reply => (reply, [])
    | inr ts => (map_outcome (fetch (call_of payload ts)), [call_of payload ts])
    end.
Proof.
  intros Hreq Hmode. required_fields Hreq.
  unfold POST, Relay.POST, call_of.
  rewrite Hpid, Htok, Hmsg, Hpid', Htok', Hmsg', Hmode. reflexivity.
Qed.

Lemma POST_missing now payload :
  required_present payload = false ->
  POST now (Some payload) = (missing_fields, []).
Proof.
  unfold required_present, POST, Relay.POST, blank.
  destruct (pageId payload) as [pid|]; [|reflexivity].
  destruct (accessToken payload) as [tok|]; [|reflexivity].
  destruct (message payload) as [msg|]; [|reflexivity].
  destruct (truthy (trim pid)), (truthy (trim tok)), (truthy (trim msg));
  simpl; intros H; (reflexivity || discriminate).
Qed.

(** Whatever was forwarded was built from a validated payload, and the
    reply is the mapped outcome of that one call. *)
Lemma POST_forwarded_inv now request call :
  (POST now request).2 = [call] ->
  exists payload ts,
    request = Some payload /\
    required_present payload = true /\
    invalid_mode (mode payload) = false /\
    resolve_schedule now (scheduledTime payload) = inr ts /\
    call = call_of payload ts /\
    (POST now request).1 = map_outcome (fetch call).
Proof.
  destruct request as [payload|]; [|discriminate].
  destruct (required_present payload) eqn:Hreq;
    [|rewrite POST_missing by assumption; discriminate].
  destruct (invalid_mode (mode payload)) eqn:Hmode.
  - unfold POST, Relay.POST.
    destruct (pageId payload), (accessToken payload), (message payload);
      try discriminate.
    rewrite Hmode. destruct (_ || _); discriminate.
  - rewrite POST_validated by assumption.
    destruct (resolve_schedule now (scheduledTime payload)) as [reply|ts] eqn:Hs;
      [discriminate|].
    simpl. intros [= <-]. exists payload, ts. auto 10.
Qed.

(** A timestamp that passed validation under a clock at or after the
    epoch is a positive number of seconds, hence truthy. *)
Lemma resolve_schedule_future now s parsed :
  s <> "" ->
  Date_parse s = Some parsed ->
  epoch_seconds now < epoch_seconds parsed ->
  resolve_schedule now (Some s) = inr (Some (epoch_seconds parsed)).
Proof.
  intros Hs Hp Hlt. unfold resolve_schedule, Relay.resolve_schedule.
  apply truthy_spec in Hs. rewrite Hs, Hp.
  destruct (Z.leb_spec (epoch_seconds parsed) (epoch_seconds now)); [lia|reflexivity].
Qed.

Lemma resolve_schedule_absent now o :
  supplied o = false -> resolve_schedule now o = inr None.
Proof.
  unfold resolve_schedule, Relay.resolve_schedule.
  destruct o as [s|]; simpl; [intros ->|]; reflexivity.
Qed.

Lemma epoch_seconds_nonneg now : 0 <= now -> 0 <= epoch_seconds now.
Proof. intros H. unfold epoch_seconds. apply Z.div_pos; lia. Qed.

Lemma lookup_build_params_schedule tok msg lnk img ts :
  ts <> 0 ->
  build_params tok msg lnk img (Some ts) !! "scheduled_publish_time"
    = Some (String_of_number ts)
  /\ build_params tok msg lnk img (Some ts) !! "published" = Some "false".
Proof.
  intros Hts. unfold build_params, truthy_number.
  destruct (Z.eqb_spec ts 0) as [|_]; [contradiction|]. simpl.
  split.
  - rewrite lookup_insert_ne by done. apply lookup_insert_eq.
  - apply lookup_insert_eq.
Qed.

Lemma lookup_build_params_immediate tok msg lnk img :
  build_params tok msg lnk img None !! "scheduled_publish_time" = None
  /\ build_params tok msg lnk img None !! "published"
       = if supplied img then Some "true" else None.
Proof.
  unfold build_params.
  destruct lnk as [l|], img as [u|]; simpl;
    repeat match goal with |- context [if ?b then _ else _] => destruct b end;
    split; repeat (rewrite lookup_insert_ne by done);
    try apply lookup_insert_eq; apply lookup_empty.
Qed.

Lemma lookup_build_params_link tok msg lnk img ts :
  build_params tok msg lnk img ts !! "link"
    = if supplied lnk && negb (supplied img)
      then Some (trim (nullish lnk "")) else None.
Proof.
  unfold build_params, truthy_number.
  destruct lnk as [l|], img as [u|], ts as [z|]; simpl;
    repeat match goal with |- context [if ?b then _ else _] => destruct b; simpl end;
    repeat (rewrite lookup_insert_ne by done);
    try apply lookup_insert_eq; apply lookup_empty.
Qed.

(** A validated request whose scheduledTime parses to a later second is
    forwarded with the two scheduling fields, whatever its (valid) mode. *)
Lemma POST_forwards_scheduled now payload s parsed :
  required_present payload = true ->
  invalid_mode (mode payload) = false ->
  0 <= now ->
  scheduledTime payload = Some s ->
  s <> "" ->
  Date_parse s = Some parsed ->
  epoch_seconds now < epoch_seconds parsed ->
  exists call,
    (POST now (Some payload)).2 = [call]
    /\ bodyParams call !! "scheduled_publish_time"
         = Some (String_of_number (parsed / 1000))
    /\ bodyParams call !! "published" = Some "false".
Proof.
  intros Hreq Hvalid Hnow Hs Hne Hp Hlt.
  rewrite POST_validated by assumption.
  rewrite Hs, (resolve_schedule_future now s parsed) by assumption.
  eexists. split; [reflexivity|]. simpl.
  apply lookup_build_params_schedule.
  pose proof (epoch_seconds_nonneg now Hnow). unfold epoch_seconds in *. lia.
Qed.

(** An immediate request is forwarded without a timestamp; [published] is
    sent, as true, for a photo only. *)
Lemma POST_forwards_immediate now payload :
  required_present payload = true ->
  invalid_mode (mode payload) = false ->
  supplied (scheduledTime payload) = false ->
  exists call,
    (POST now (Some payload)).2 = [call]
    /\ bodyParams call !! "scheduled_publish_time" = None
    /\ bodyParams call !! "published"
       = if supplied (imageUrl payload) then Some "true" else None.
Proof.
  intros Hreq Hvalid Hs.
  rewrite POST_validated, resolve_schedule_absent by assumption.
  eexists. split; [reflexivity|]. simpl.
  apply lookup_build_params_immediate.
Qed.

(** *** Claims about validation *)

(** C4: a request in which pageId, accessToken or message is missing or
    blank after trimming is answered 400 with the missing-fields message,
    and no outbound call is made. *)
Theorem POST_missing_required_fields now payload :
  blank (pageId payload) = true \/ blank (accessToken payload) = true
    \/ blank (message payload) = true ->
  POST now (Some payload) =
    ({| status := 400;
        body := ErrorBody "Missing required pageId, accessToken, or message." |},
     []).
Proof.
  intros H. apply POST_missing. unfold required_present.
  destruct H as [-> | [-> | ->]]; simpl;
    repeat match goal with |- context [negb ?b] => destruct b; simpl end;
    reflexivity.
Qed.

(** C2: for a request that passed the required-field and mode checks and
    supplies a scheduledTime, a value that parses but whose whole seconds
    are not strictly greater than those of the current instant is answered
    400 "scheduledTime must be in the future."; a value that does not
    parse is answered 400 "scheduledTime must be an ISO date.".  Neither
    makes an outbound call. *)
Theorem POST_scheduledTime_rejected now payload s :
  required_present payload = true ->
  invalid_mode (mode payload) = false ->
  scheduledTime payload = Some s ->
  s <> "" ->
  (forall parsed,
      Date_parse s = Some parsed ->
      epoch_seconds parsed <= epoch_seconds now ->
      POST now (Some payload) =
        ({| status := 400;
            body := ErrorBody "scheduledTime must be in the future." |}, []))
  /\ (Date_parse s = None ->
      POST now (Some payload) =
        ({| status := 400;
            body := ErrorBody "scheduledTime must be an ISO date." |}, [])).
Proof.
  intros Hreq Hmode Hs Hne. apply truthy_spec in Hne.
  rewrite POST_validated by assumption. rewrite Hs.
  unfold resolve_schedule, Relay.resolve_schedule. rewrite Hne.
  split.
  - intros parsed -> Hle.
    destruct (Z.leb_spec (epoch_seconds parsed) (epoch_seconds now)); [reflexivity|lia].
  - intros ->. reflexivity.
Qed.

(** Truncating toward zero and [Math.floor] order an instant against a
    clock at or after the epoch in the same way. *)
Lemma epoch_seconds_trunc now parsed :
  0 <= now ->
  (parsed ÷ 1000 <= now ÷ 1000 <-> epoch_seconds parsed <= epoch_seconds now).
Proof.
  intros Hnow. unfold epoch_seconds.
  rewrite (Z.quot_div_nonneg now 1000) by lia.
  destruct (Z.le_gt_cases 0 parsed) as [Hp|Hp].
  - rewrite (Z.quot_div_nonneg parsed 1000) by lia. reflexivity.
  - assert (parsed ÷ 1000 <= 0) by (apply Z.quot_le_upper_bound; lia).
    assert (parsed / 1000 < 0) by (apply Z.div_lt_upper_bound; lia).
    assert (0 <= now / 1000) by (apply Z.div_pos; lia).
    lia.
Qed.

(** *** Claims about the forwarded request *)

(** C1: with the required fields present and a clock at or after the
    epoch, a mode=schedule request whose scheduledTime parses to a later
    second is forwarded with scheduled_publish_time = floor(ms/1000) and
    published=false; an immediate feed post (no scheduledTime, no imageUrl)
    is forwarded with neither field; an immediate photo post (imageUrl, no
    scheduledTime) is forwarded with published=true. *)
Theorem POST_schedule_and_publish_flags now payload :
  required_present payload = true ->
  0 <= now ->
  (forall s parsed,
      mode payload = Some "schedule" ->
      scheduledTime payload = Some s ->
      s <> "" ->
      Date_parse s = Some parsed ->
      epoch_seconds now < epoch_seconds parsed ->
      exists call,
        (POST now (Some payload)).2 = [call]
        /\ bodyParams call !! "scheduled_publish_time"
             = Some (String_of_number (parsed / 1000))
        /\ bodyParams call !! "published" = Some "false")
  /\ (invalid_mode (mode payload) = false ->
      supplied (scheduledTime payload) = false ->
      supplied (imageUrl payload) = false ->
      exists call,
        (POST now (Some payload)).2 = [call]
        /\ bodyParams call !! "scheduled_publish_time" = None
        /\ bodyParams call !! "published" = None)
  /\ (invalid_mode (mode payload) = false ->
      supplied (scheduledTime payload) = false ->
      supplied (imageUrl payload) = true ->
      exists call,
        (POST now (Some payload)).2 = [call]
        /\ bodyParams call !! "scheduled_publish_time" = None
        /\ bodyParams call !! "published" = Some "true").
Proof.
  intros Hreq Hnow. split; [|split].
  - intros s parsed Hmode Hs Hne Hp Hlt.
    apply (POST_forwards_scheduled now payload s parsed); try assumption.
    rewrite Hmode. reflexivity.
  - intros Hvalid Hs Himg.
    destruct (POST_forwards_immediate now payload Hreq Hvalid Hs)
      as (call & Hcall & Htime & Hpub).
    rewrite Himg in Hpub. eauto.
  - intros Hvalid Hs Himg.
    destruct (POST_forwards_immediate now payload Hreq Hvalid Hs)
      as (call & Hcall & Htime & Hpub).
    rewrite Himg in Hpub. eauto.
Qed.

(** Whenever a request is forwarded, a non-empty imageUrl makes the
    handler parse the template ending in the photos endpoint and send no
    link field; with no imageUrl it parses the template ending in the feed
    endpoint and sends a supplied link (trimmed).  The call goes to what
    [new URL] makes of that text, the page id being pasted in as it came. *)
Lemma POST_endpoint_and_link now payload pid call :
  pageId payload = Some pid ->
  (POST now (Some payload)).2 = [call] ->
  (supplied (imageUrl payload) = true ->
     targetUrl call
       = new_URL ("https://graph.facebook.com/v19.0/" +:+ pid +:+ "/photos")
     /\ bodyParams call !! "link" = None)
  /\ (supplied (imageUrl payload) = false ->
     targetUrl call
       = new_URL ("https://graph.facebook.com/v19.0/" +:+ pid +:+ "/feed")
     /\ forall l, link payload = Some l -> l <> "" ->
          bodyParams call !! "link" = Some (trim l)).
Proof.
  intros Hpid Hfwd.
  apply POST_forwarded_inv in Hfwd
    as (payload' & ts & [= <-] & _ & _ & _ & -> & _).
  unfold call_of, Relay.call_of. simpl. rewrite Hpid. simpl.
  rewrite lookup_build_params_link. unfold url_template, endpoint_of.
  split; intros Himg; rewrite Himg.
  - split; [reflexivity|]. rewrite andb_false_r. reflexivity.
  - split; [reflexivity|]. intros l -> Hl. apply truthy_spec in Hl.
    simpl. rewrite Hl. reflexivity.
Qed.

(** C10: the forwarded request does not depend on mode.  Two requests that
    differ only in a valid mode get the same reply and the same outbound
    call; a validated request with any valid mode (now, schedule or absent)
    and a scheduledTime parsing to a later second is forwarded with
    scheduled_publish_time and published=false; an invalid mode is the
    only way mode influences the reply. *)
Theorem POST_mode_irrelevant now payload :
  (forall m1 m2,
      invalid_mode m1 = false -> invalid_mode m2 = false ->
      POST now (Some (with_mode m1 payload))
        = POST now (Some (with_mode m2 payload)))
  /\ (forall s parsed,
      required_present payload = true ->
      invalid_mode (mode payload) = false ->
      0 <= now ->
      scheduledTime payload = Some s ->
      s <> "" ->
      Date_parse s = Some parsed ->
      epoch_seconds now < epoch_seconds parsed ->
      exists call,
        (POST now (Some payload)).2 = [call]
        /\ bodyParams call !! "scheduled_publish_time"
             = Some (String_of_number (parsed / 1000))
        /\ bodyParams call !! "published" = Some "false")
  /\ (required_present payload = true ->
      invalid_mode (mode payload) = true ->
      POST now (Some payload)
        = ({| status := 400; body := ErrorBody "Invalid mode provided." |}, [])).
Proof.
  split; [|split].
  - intros m1 m2 H1 H2.
    destruct (required_present payload) eqn:Hreq.
    + rewrite !POST_validated by assumption. reflexivity.
    + rewrite !POST_missing by assumption. reflexivity.
  - intros s parsed Hreq Hvalid Hnow Hs Hne Hp Hlt.
    apply (POST_forwards_scheduled now payload s parsed); assumption.
  - intros Hreq Hmode. required_fields Hreq.
    unfold POST, Relay.POST. rewrite Hpid, Htok, Hmsg, Hpid', Htok', Hmsg'.
    simpl. rewrite Hmode. reflexivity.
Qed.

(** *** Claims about the result mapping *)

(** Once a request was forwarded and the upstream call resolved, the
    relay replies {id} with status 200 exactly when the upstream response
    is ok and its decoded body holds a (non-empty) id.  In every other
    case (an undecodable body counts as the empty object) it builds a
    failure with the upstream status, or 500 when that status is zero, and
    with the upstream error if a string, else error.message, else
    "Meta API error."; when [NextResponse.json] throws on that status, the
    reply is the 500 of the [catch], with the message of the error
    thrown. *)
Lemma POST_result_mapping now request call r :
  (POST now request).2 = [call] ->
  fetch call = Resolved r ->
  let json := default empty_object (upstream_json r) in
  let reply := (POST now request).1 in
  let st := if upstream_status r =? 0 then 500 else upstream_status r in
  (forall i,
      reply = {| status := 200; body := IdBody i |}
      <-> ok r = true /\ id json = Some i /\ i <> "")
  /\ (ok r = false \/ supplied (id json) = false ->
      if throws_on_status st
      then reply = {| status := 500; body := ErrorBody (Response_error st) |}
      else
        status reply = st
        /\ body reply =
             ErrorBody
               match error json with
               | Some (ErrorString text) => text
               | Some (ErrorObject (Some text)) => text
               | Some (ErrorObject None) | None => "Meta API error."
               end).
Proof.
  intros Hfwd Hres json reply st.
  apply POST_forwarded_inv in Hfwd as (_ & _ & _ & _ & _ & _ & _ & Hreply).
  assert (Hr : reply = map_response r).
  { subst reply. rewrite Hreply, Hres. reflexivity. }
  clearbody reply. subst reply. unfold map_response, Relay.map_response.
  fold json. unfold status_or_500. fold st.
  assert (Hmsg : graphError json =
                 match error json with
                 | Some (ErrorString text) => text
                 | Some (ErrorObject (Some text)) => text
                 | Some (ErrorObject None) | None => "Meta API error."
                 end).
  { unfold graphError. destruct (error json) as [[t|[m|]]|]; reflexivity. }
  rewrite <- Hmsg. clear Hmsg.
  destruct (id json) as [i|] eqn:Hid; simpl.
  - destruct (ok r) eqn:Hok; simpl.
    + destruct (truthy i) eqn:Hi; simpl.
      * split.
        -- intros j. split.
           ++ intros [= <-]. apply truthy_spec in Hi. auto.
           ++ intros (_ & [= <-] & _). reflexivity.
        -- intros [?|?]; discriminate.
      * split.
        -- intros j. split.
           ++ destruct (throws_on_status st); discriminate.
           ++ intros (_ & [= <-] & Hj). apply truthy_spec in Hj. congruence.
        -- intros _. destruct (throws_on_status st); [reflexivity|].
           split; reflexivity.
    + split.
      * intros j. split.
        -- destruct (throws_on_status st); discriminate.
        -- intros (? & _); discriminate.
      * intros _. destruct (throws_on_status st); [reflexivity|].
        split; reflexivity.
  - split.
    + intros j. split.
      * destruct (throws_on_status st); discriminate.
      * intros (_ & ? & _); discriminate.
    + intros _. destruct (throws_on_status st); [reflexivity|].
      split; reflexivity.
Qed.

End WithEnvironment.

End RelayFacts.

(** ** Properties of the dashboard controller *)

Module DashboardFacts.
Import JS Dashboard.

(** *** Templates *)

(** C9: applying a template twice in a row leaves the composer's message,
    link and imageUrl equal to the template's stored fields (an absent
    link or imageUrl reads as the empty string), the second application
    changes nothing, and credentials, mode and scheduledTime are never
    touched. *)
Theorem applyTemplate_idempotent (st : State) (template : PostTemplate.t) :
  let once := run st (applyTemplate template) in
  let twice := run once (applyTemplate template) in
  twice = once
  /\ message twice = PostTemplate.message template
  /\ link twice = nullish (PostTemplate.link template) ""
  /\ imageUrl twice = nullish (PostTemplate.imageUrl template) ""
  /\ pageId twice = pageId st
  /\ accessToken twice = accessToken st
  /\ mode twice = mode st
  /\ scheduledTime twice = scheduledTime st.
Proof.
  destruct st, template. cbn. repeat split; reflexivity.
Qed.

(** Templates named [n] among those that are not: none. *)
Lemma filter_name_complement (n : string) (l : list PostTemplate.t) :
  filter (fun tpl => PostTemplate.name tpl = n)
         (filter (fun tpl => PostTemplate.name tpl <> n) l) = [].
Proof.
  induction l as [|tpl l IH]; [reflexivity|].
  rewrite filter_cons. case_decide as Hne.
  - rewrite filter_cons_False by exact Hne. exact IH.
  - exact IH.
Qed.

Lemma templates_run_save fresh st :
  truthy (trim (templateName st)) = true ->
  truthy (trim (message st)) = true ->
  templates (run st (handleTemplateSave fresh st))
  = filter (fun tpl => PostTemplate.name tpl <> trim (templateName st))
           (templates st)
    ++ [ {| PostTemplate.id := fresh;
            PostTemplate.name := trim (templateName st);
            PostTemplate.message := message st;
            PostTemplate.link := or_undefined (trim (link st));
            PostTemplate.imageUrl := or_undefined (trim (imageUrl st)) |} ].
Proof.
  intros Hn Hm. unfold handleTemplateSave. rewrite Hn, Hm.
  destruct st. reflexivity.
Qed.

(** C8: a save with a blank name or message leaves the template list
    unchanged; an accepted save removes every template bearing the trimmed
    name and appends the new one under the freshly generated id; saving
    "A" with "X" and then "A" with "Y" leaves exactly one template named
    "A", whose message is "Y". *)
Theorem handleTemplateSave_replaces_by_name (st : State) (id1 id2 : string) :
  (truthy (trim (templateName st)) = false \/ truthy (trim (message st)) = false ->
   templates (run st (handleTemplateSave id1 st)) = templates st)
  /\ (truthy (trim (templateName st)) = true ->
      truthy (trim (message st)) = true ->
      exists saved,
        templates (run st (handleTemplateSave id1 st))
        = filter (fun tpl => PostTemplate.name tpl <> trim (templateName st))
                 (templates st) ++ [saved]
        /\ PostTemplate.id saved = id1
        /\ PostTemplate.name saved = trim (templateName st)
        /\ PostTemplate.message saved = message st)
  /\ (let st1 := run st (retype "A" "X") in
      let st2 := run st1 (handleTemplateSave id1 st1) in
      let st3 := run st2 (retype "A" "Y") in
      let st4 := run st3 (handleTemplateSave id2 st3) in
      exists saved,
        filter (fun tpl => PostTemplate.name tpl = "A") (templates st4) = [saved]
        /\ PostTemplate.id saved = id2
        /\ PostTemplate.message saved = "Y").
Proof.
  split; [|split].
  - intros H. unfold handleTemplateSave.
    destruct H as [-> | ->]; rewrite ?orb_true_r; destruct st; reflexivity.
  - intros Hn Hm. eexists. split; [apply templates_run_save; assumption|].
    repeat split.
  - intros st1 st2 st3 st4.
    assert (H3 : templateName st3 = "A" /\ message st3 = "Y"
                 /\ templates st3 = templates st2
                 /\ link st3 = link st2 /\ imageUrl st3 = imageUrl st2).
    { subst st3. destruct st2. cbn. auto. }
    destruct H3 as (Hn3 & Hm3 & Ht3 & Hl3 & Hi3).
    assert (H1 : templateName st1 = "A" /\ message st1 = "X").
    { subst st1. destruct st. cbn. auto. }
    destruct H1 as (Hn1 & Hm1).
    assert (Ht4 := templates_run_save id2 st3).
    rewrite Hn3, Hm3 in Ht4. specialize (Ht4 eq_refl eq_refl). fold st4 in Ht4.
    assert (Ht2 := templates_run_save id1 st1).
    rewrite Hn1, Hm1 in Ht2. specialize (Ht2 eq_refl eq_refl). fold st2 in Ht2.
    change (trim "A") with "A" in Ht4, Ht2.
    eexists. rewrite Ht4, Ht3, Ht2.
    rewrite filter_app, filter_name_complement.
    rewrite filter_cons_True by reflexivity. rewrite filter_nil.
    repeat split.
Qed.

(** *** The queue *)

Lemma queue_run_settle st queuedId result :
  queue (run st (settle queuedId result)) = settle_queue queuedId result (queue st).
Proof. destruct st. reflexivity. Qed.

(** C7: when a relay call settles for the identifier [queuedId], an entry
    with that id gets the status success or error and the response
    payload, its other fields kept; every entry with another id is
    unchanged, at the same position; and when no entry bears the id the
    queue is unchanged. *)
Theorem settle_updates_matching_entry_only
    (st : State) (queuedId : string) (result : RelayResult.t) :
  let st' := run st (settle queuedId result) in
  length (queue st') = length (queue st)
  /\ (forall i post,
        queue st !! i = Some post ->
        QueuedPost.id post = queuedId ->
        exists post',
          queue st' !! i = Some post'
          /\ QueuedPost.status post'
             = (if RelayResult.ok result then success else error)
          /\ QueuedPost.response post' = Some (RelayResult.data result)
          /\ QueuedPost.id post' = QueuedPost.id post
          /\ QueuedPost.message post' = QueuedPost.message post
          /\ QueuedPost.link post' = QueuedPost.link post
          /\ QueuedPost.imageUrl post' = QueuedPost.imageUrl post
          /\ QueuedPost.mode post' = QueuedPost.mode post
          /\ QueuedPost.scheduledTime post' = QueuedPost.scheduledTime post
          /\ QueuedPost.createdAt post' = QueuedPost.createdAt post)
  /\ (forall i post,
        queue st !! i = Some post ->
        QueuedPost.id post <> queuedId ->
        queue st' !! i = Some post)
  /\ ((forall post, post ∈ queue st -> QueuedPost.id post <> queuedId) ->
      queue st' = queue st).
Proof.
  intros st'. subst st'. rewrite queue_run_settle. unfold settle_queue.
  split; [apply length_fmap|]. split; [|split].
  - intros i post Hi Hid. rewrite list_lookup_fmap, Hi. simpl.
    apply String.eqb_eq in Hid. rewrite Hid.
    eexists. split; [reflexivity|]. simpl. repeat split.
  - intros i post Hi Hid. rewrite list_lookup_fmap, Hi. simpl.
    apply String.eqb_neq in Hid. rewrite Hid. reflexivity.
  - intros Hall. induction (queue st) as [|post q IH]; [reflexivity|].
    rewrite fmap_cons. f_equal.
    + assert (Hid : QueuedPost.id post <> queuedId) by (apply Hall; left).
      apply String.eqb_neq in Hid. rewrite Hid. reflexivity.
    + apply IH. intros p Hp. apply Hall. right. exact Hp.
Qed.

(** *** Submission *)

Section Submission.

Variable parseISO : string -> option Z.
Variable toISOString : Z -> string.

#[local] Abbreviation enqueuePost := (Dashboard.enqueuePost toISOString).
#[local] Abbreviation rerender := (Dashboard.rerender parseISO).

(** A blank credential or message blocks the submission. *)
Lemma enqueuePost_blank fresh instant r :
  truthy (trim (pageId (cells r))) = false
  \/ truthy (trim (accessToken (cells r))) = false
  \/ truthy (trim (message (cells r))) = false ->
  created_entries (enqueuePost fresh instant r) = []
  /\ relay_calls (enqueuePost fresh instant r) = [].
Proof.
  intros H. unfold enqueuePost, Dashboard.enqueuePost.
  destruct H as [-> | [-> | ->]]; rewrite ?orb_true_r; simpl; auto.
Qed.

(** In schedule mode a false memoised [canSchedule] blocks it too. *)
Lemma enqueuePost_cannot_schedule fresh instant r :
  mode (cells r) = schedule ->
  canSchedule r = false ->
  created_entries (enqueuePost fresh instant r) = []
  /\ relay_calls (enqueuePost fresh instant r) = [].
Proof.
  intros Hm Hc. unfold enqueuePost, Dashboard.enqueuePost.
  rewrite Hm, Hc. destruct (_ || _); simpl; auto.
Qed.

(** Otherwise the entry is prepended, pending, under the fresh id, with the
    trimmed payload and the creation time, before the relay call is
    issued. *)
Lemma enqueuePost_accepted fresh instant r :
  truthy (trim (pageId (cells r))) = true ->
  truthy (trim (accessToken (cells r))) = true ->
  truthy (trim (message (cells r))) = true ->
  mode (cells r) = now \/ canSchedule r = true ->
  exists queued payload feedback,
    enqueuePost fresh instant r
    = [ setQueue_prepend queued; setError None; setSuccess feedback;
        startTransition payload fresh ]
    /\ queue (run (cells r) (enqueuePost fresh instant r)) = queued :: queue (cells r)
    /\ QueuedPost.id queued = fresh
    /\ QueuedPost.status queued = pending
    /\ QueuedPost.response queued = None
    /\ QueuedPost.createdAt queued = toISOString instant
    /\ QueuedPost.message queued = trim (message (cells r))
    /\ QueuedPost.link queued = or_undefined (trim (link (cells r)))
    /\ QueuedPost.imageUrl queued = or_undefined (trim (imageUrl (cells r)))
    /\ QueuedPost.mode queued = mode (cells r)
    /\ PublishPayload.pageId payload = trim (pageId (cells r))
    /\ PublishPayload.accessToken payload = trim (accessToken (cells r))
    /\ PublishPayload.message payload = trim (message (cells r)).
Proof.
  intros Hp Ht Hm Hgate. unfold enqueuePost, Dashboard.enqueuePost.
  rewrite Hp, Ht, Hm. simpl.
  assert (Hg : bool_decide (mode (cells r) = schedule) && negb (canSchedule r) = false).
  { destruct Hgate as [-> | ->]; [reflexivity | apply andb_false_r]. }
  rewrite Hg. do 3 eexists. split; [reflexivity|].
  split; [destruct (cells r); reflexivity|]. simpl. repeat split.
Qed.

(** [useMemo] keeps the cached [canSchedule] across renders that change
    neither [mode] nor [scheduledTime], whatever the time of the render. *)
Lemma rerender_keeps_canSchedule instant r actions :
  deps (canSchedule_memo r) = (mode (cells r), scheduledTime (cells r)) ->
  mode (run (cells r) actions) = mode (cells r) ->
  scheduledTime (run (cells r) actions) = scheduledTime (cells r) ->
  canSchedule (rerender instant r actions) = canSchedule r
  /\ deps (canSchedule_memo (rerender instant r actions))
     = (mode (run (cells r) actions), scheduledTime (run (cells r) actions)).
Proof.
  intros Hd Hm Hs. unfold canSchedule, rerender, Dashboard.rerender. simpl.
  unfold useMemo_canSchedule. rewrite Hm, Hs.
  case_decide; [auto|contradiction].
Qed.

(** It recomputes it, against the clock of that render, when one changed. *)
Lemma rerender_recomputes_canSchedule instant r actions :
  deps (canSchedule_memo r)
    <> (mode (run (cells r) actions), scheduledTime (run (cells r) actions)) ->
  canSchedule (rerender instant r actions)
  = compute_canSchedule parseISO (mode (run (cells r) actions))
                        (scheduledTime (run (cells r) actions)) instant.
Proof.
  intros Hd. unfold canSchedule, rerender, Dashboard.rerender. simpl.
  unfold useMemo_canSchedule. case_decide; [contradiction|reflexivity].
Qed.

(** The guards of [enqueuePost] never read the clock: the instant of the
    call only stamps [createdAt]. *)
Lemma enqueuePost_guards_ignore_clock fresh t1 t2 r :
  relay_calls (enqueuePost fresh t1 r) = relay_calls (enqueuePost fresh t2 r)
  /\ length (created_entries (enqueuePost fresh t1 r))
     = length (created_entries (enqueuePost fresh t2 r)).
Proof.
  unfold enqueuePost, Dashboard.enqueuePost.
  destruct (_ || _); [auto|]. destruct (_ && _); auto.
Qed.

End Submission.

End DashboardFacts.

(** ** Properties of [trim] *)

Module TrimFacts.
Import JS Notions.

Lemma trimStart_skip s :
  trimStart s
  = match skip_white_space s with Some rest => trimStart rest | None => s end.
Proof.
  destruct s as [|a [|b [|c rest]]]; simpl; try reflexivity.
  - destruct (is_white_space a); reflexivity.
  - destruct (is_white_space a); [reflexivity|].
    destruct (is_white_space2 a b); reflexivity.
  - destruct (is_white_space a); [reflexivity|].
    destruct (is_white_space2 a b); [reflexivity|].
    destruct (is_white_space3 a b c); reflexivity.
Qed.

Lemma skip_white_space_length s rest :
  skip_white_space s = Some rest -> (String.length rest < String.length s)%nat.
Proof.
  destruct s as [|a [|b [|c r]]]; simpl; try discriminate.
  - destruct (is_white_space a); intros [= <-] || discriminate. simpl. lia.
  - destruct (is_white_space a); [intros [= <-]; simpl; lia|].
    destruct (is_white_space2 a b); [intros [= <-]; simpl; lia|discriminate].
  - destruct (is_white_space a); [intros [= <-]; simpl; lia|].
    destruct (is_white_space2 a b); [intros [= <-]; simpl; lia|].
    destruct (is_white_space3 a b c); [intros [= <-]; simpl; lia|discriminate].
Qed.

(** Skipping a character looks at that character only. *)
Lemma skip_white_space_app s rest w :
  skip_white_space s = Some rest ->
  skip_white_space (s +:+ w) = Some (rest +:+ w).
Proof.
  destruct s as [|a [|b [|c r]]]; simpl; try discriminate.
  - destruct (is_white_space a); intros [= <-] || discriminate. reflexivity.
  - destruct (is_white_space a); [intros [= <-]; reflexivity|].
    destruct (is_white_space2 a b); [intros [= <-]; reflexivity|discriminate].
  - destruct (is_white_space a); [intros [= <-]; reflexivity|].
    destruct (is_white_space2 a b); [intros [= <-]; reflexivity|].
    destruct (is_white_space3 a b c); [intros [= <-]; reflexivity|discriminate].
Qed.

(** Induction along the characters [trimStart] skips. *)
Lemma skip_white_space_ind (P : string -> Prop) :
  (forall s, skip_white_space s = None -> P s) ->
  (forall s rest, skip_white_space s = Some rest -> P rest -> P s) ->
  forall s, P s.
Proof.
  intros Hnone Hsome s.
  remember (String.length s) as n eqn:Hn.
  revert s Hn. induction (lt_wf n) as [n _ IH]. intros s ->.
  destruct (skip_white_space s) as [rest|] eqn:Hs.
  - apply (Hsome s rest Hs).
    apply (IH (String.length rest)); [|reflexivity].
    by apply skip_white_space_length.
  - by apply Hnone.
Qed.

Lemma trimStart_fixed s : starts_clean s -> trimStart s = s.
Proof. unfold starts_clean. intros H. by rewrite trimStart_skip, H. Qed.

Lemma trimStart_clean s : starts_clean (trimStart s).
Proof.
  induction s as [s Hs | s rest Hs IH] using skip_white_space_ind.
  - by rewrite trimStart_fixed.
  - by rewrite trimStart_skip, Hs.
Qed.

Lemma trimStart_idempotent s : trimStart (trimStart s) = trimStart s.
Proof. apply trimStart_fixed, trimStart_clean. Qed.

(** White space in front of [w] does not change what [trimStart] leaves
    of it. *)
Lemma trimStart_app_white s w :
  trimStart s = "" -> trimStart (s +:+ w) = trimStart w.
Proof.
  induction s as [s Hs | s rest Hs IH] using skip_white_space_ind.
  - rewrite trimStart_fixed by exact Hs. by intros ->.
  - rewrite (trimStart_skip s), Hs. intros Hrest.
    rewrite trimStart_skip, (skip_white_space_app _ _ _ Hs). by apply IH.
Qed.

Lemma trimEnd_cons c rest :
  trimEnd (String c rest)
  = match trimStart (String c rest) with
    | EmptyString => EmptyString
    | String _ _ => String c (trimEnd rest)
    end.
Proof. reflexivity. Qed.

(** [trimEnd] cuts a run of white space off the end, and nothing else. *)
Lemma trimEnd_split s : exists w, s = trimEnd s +:+ w /\ trimStart w = "".
Proof.
  induction s as [|c rest [w [IH Hw]]].
  - by exists "".
  - rewrite trimEnd_cons. destruct (trimStart (String c rest)) eqn:Hall.
    + by exists (String c rest).
    + exists w. split; [|done].
      change (String c rest = String c (trimEnd rest +:+ w)). by f_equal.
Qed.

Lemma trimEnd_white s : trimStart s = "" -> trimEnd s = "".
Proof. destruct s; [done|]. rewrite trimEnd_cons. by intros ->. Qed.

Lemma trimEnd_not_white s : trimStart s <> "" -> trimStart (trimEnd s) <> "".
Proof.
  intros Hs Hcut. apply Hs.
  destruct (trimEnd_split s) as [w [Heq Hw]].
  rewrite Heq, (trimStart_app_white _ _ Hcut). exact Hw.
Qed.

Lemma trimEnd_idempotent s : trimEnd (trimEnd s) = trimEnd s.
Proof.
  induction s as [|c rest IH]; [done|].
  rewrite trimEnd_cons. destruct (trimStart (String c rest)) eqn:Hall; [done|].
  assert (Hnw : trimStart (trimEnd (String c rest)) <> "").
  { apply trimEnd_not_white. by rewrite Hall. }
  rewrite trimEnd_cons, Hall in Hnw.
  rewrite trimEnd_cons.
  destruct (trimStart (String c (trimEnd rest))); [done|]. by rewrite IH.
Qed.

Lemma trimEnd_keeps_clean_start s : starts_clean s -> starts_clean (trimEnd s).
Proof.
  unfold starts_clean. intros Hs.
  destruct (trimEnd_split s) as [w [Heq _]].
  destruct (skip_white_space (trimEnd s)) as [rest|] eqn:Hcut; [|done].
  rewrite Heq, (skip_white_space_app _ _ _ Hcut) in Hs. discriminate.
Qed.

Lemma skip_white_space_split s rest :
  skip_white_space s = Some rest ->
  exists w, s = w +:+ rest /\ trimStart w = "".
Proof.
  destruct s as [|a [|b [|c r]]]; simpl; try discriminate.
  - destruct (is_white_space a) eqn:Ha; intros [= <-] || discriminate.
    exists (String a ""). simpl. by rewrite Ha.
  - destruct (is_white_space a) eqn:Ha.
    { intros [= <-]. exists (String a ""). simpl. by rewrite Ha. }
    destruct (is_white_space2 a b) eqn:Hab; intros [= <-] || discriminate.
    exists (String a (String b "")). simpl. by rewrite Ha, Hab.
  - destruct (is_white_space a) eqn:Ha.
    { intros [= <-]. exists (String a ""). simpl. by rewrite Ha. }
    destruct (is_white_space2 a b) eqn:Hab.
    { intros [= <-]. exists (String a (String b "")). simpl. by rewrite Ha, Hab. }
    destruct (is_white_space3 a b c) eqn:Habc; intros [= <-] || discriminate.
    exists (String a (String b (String c ""))). simpl. by rewrite Ha, Hab, Habc.
Qed.

Lemma app_assoc_string (u v w : string) : (u +:+ v) +:+ w = u +:+ (v +:+ w).
Proof.
  induction u as [|c u IH]; [done|].
  change (String c ((u +:+ v) +:+ w) = String c (u +:+ (v +:+ w))).
  by f_equal.
Qed.

(** [trimStart] cuts a run of white space off the start, and nothing
    else. *)
Lemma trimStart_split s : exists w, s = w +:+ trimStart s /\ trimStart w = "".
Proof.
  induction s as [s Hs | s rest Hs [w [IH Hw]]] using skip_white_space_ind.
  - exists "". by rewrite trimStart_fixed.
  - destruct (skip_white_space_split _ _ Hs) as [e [He Hwhite]].
    exists (e +:+ w). rewrite trimStart_skip, Hs. split.
    + by rewrite app_assoc_string, <- IH.
    + by rewrite (trimStart_app_white _ _ Hwhite).
Qed.

(** [trim] takes white space off both ends, and only that: the string is
    a run of white space, what [trim] keeps, and a run of white space; and
    what is kept neither begins nor ends with white space. *)
Lemma trim_split s :
  exists before after,
    s = before +:+ trim s +:+ after
    /\ trimStart before = "" /\ trimStart after = ""
    /\ trimStart (trim s) = trim s /\ trimEnd (trim s) = trim s.
Proof.
  destruct (trimStart_split s) as [before [Hs Hbefore]].
  destruct (trimEnd_split (trimStart s)) as [after [Ht Hafter]].
  exists before, after. unfold trim. repeat split; try assumption.
  - by rewrite <- Ht.
  - apply trimStart_fixed, trimEnd_keeps_clean_start, trimStart_clean.
  - apply trimEnd_idempotent.
Qed.

(** [trim] removes nothing from an already trimmed string. *)
Lemma trim_idempotent s : trim (trim s) = trim s.
Proof.
  unfold trim.
  rewrite (trimStart_fixed (trimEnd (trimStart s))).
  - apply trimEnd_idempotent.
  - apply trimEnd_keeps_clean_start, trimStart_clean.
Qed.

Lemma truthy_trim_trim s : truthy (trim (trim s)) = truthy (trim s).
Proof. rewrite trim_idempotent. reflexivity. Qed.

End TrimFacts.

(** ** More properties of the relay *)

Module RelayMoreFacts.
Import JS Relay RelayFacts.

(** Case analysis on every test [build_params] makes, then the lookups. *)
Ltac params_cases lnk img ts :=
  unfold build_params, truthy_number, supplied;
  destruct lnk as [?l|], img as [?u|], ts as [?z|];
  repeat match goal with
         | |- context [truthy ?x] => destruct (truthy x)
         | |- context [Z.eqb ?x 0] => destruct (Z.eqb x 0)
         end;
  simpl.

Ltac params_lookup :=
  repeat (rewrite lookup_insert_ne by done);
  first [ apply lookup_insert_eq | apply lookup_empty | reflexivity ].

Lemma lookup_build_params_token tok msg lnk img ts :
  build_params tok msg lnk img ts !! "access_token" = Some (trim tok)
  /\ build_params tok msg lnk img ts !! "message" = Some (trim msg).
Proof. params_cases lnk img ts; split; params_lookup. Qed.

Lemma lookup_build_params_url tok msg lnk img ts :
  build_params tok msg lnk img ts !! "url"
  = if supplied img then Some (trim (nullish img "")) else None.
Proof. params_cases lnk img ts; params_lookup. Qed.

Lemma lookup_build_params_time tok msg lnk img ts :
  build_params tok msg lnk img ts !! "scheduled_publish_time"
  = if truthy_number ts then String_of_number <$> ts else None.
Proof. params_cases lnk img ts; params_lookup. Qed.

Lemma lookup_build_params_published tok msg lnk img ts :
  build_params tok msg lnk img ts !! "published"
  = if truthy_number ts then Some "false"
    else if supplied img then Some "true" else None.
Proof. params_cases lnk img ts; params_lookup. Qed.

Lemma dom_build_params tok msg lnk img ts :
  dom (build_params tok msg lnk img ts)
  ⊆ ({[ "access_token"; "message"; "link"; "url"; "scheduled_publish_time";
        "published" ]} : gset string).
Proof.
  params_cases lnk img ts; rewrite ?dom_insert_L, ?dom_empty_L;
    intros k; set_unfold; tauto.
Qed.

Section WithEnvironment.

Variable Date_parse : string -> option Z.
Variable fetch : Outbound -> FetchOutcome.
Variable new_URL : string -> URL.
Variable Response_error : Z -> string.

#[local] Abbreviation POST :=
  (Relay.POST Date_parse fetch new_URL Response_error).
#[local] Abbreviation resolve_schedule := (Relay.resolve_schedule Date_parse).
#[local] Abbreviation call_of := (Relay.call_of new_URL).
#[local] Abbreviation map_response := (Relay.map_response Response_error).
#[local] Abbreviation map_outcome := (Relay.map_outcome Response_error).

Lemma resolve_schedule_inl now o reply :
  resolve_schedule now o = inl reply ->
  status reply = 400 /\ exists text, body reply = ErrorBody text.
Proof.
  unfold resolve_schedule, Relay.resolve_schedule.
  destruct o as [s|]; [|discriminate].
  destruct (truthy s); [|discriminate].
  destruct (Date_parse s) as [parsed|].
  - destruct (_ <=? _); [|discriminate]. intros [= <-]. simpl. eauto.
  - intros [= <-]. simpl. eauto.
Qed.

Lemma resolve_schedule_inr now o ts :
  resolve_schedule now o = inr (Some ts) -> epoch_seconds now < ts.
Proof.
  unfold resolve_schedule, Relay.resolve_schedule.
  destruct o as [s|]; [|discriminate].
  destruct (truthy s); [|discriminate].
  destruct (Date_parse s) as [parsed|]; [|discriminate].
  destruct (Z.leb_spec (epoch_seconds parsed) (epoch_seconds now)); [discriminate|].
  intros [= <-]. assumption.
Qed.

(** X1: Every invocation makes at most one upstream call, and one that makes
    none answers 400 with an error message. *)
Theorem POST_calls_upstream_at_most_once now request :
  ((POST now request).2 = []
   /\ status (POST now request).1 = 400
   /\ exists text, body (POST now request).1 = ErrorBody text)
  \/ (exists call, (POST now request).2 = [call]).
Proof.
  destruct request as [payload|]; [|left; simpl; eauto].
  destruct (required_present payload) eqn:Hreq.
  - destruct (invalid_mode (mode payload)) eqn:Hmode.
    + left. required_fields Hreq. unfold POST, Relay.POST.
      rewrite Hpid, Htok, Hmsg, Hpid', Htok', Hmsg'. simpl. rewrite Hmode.
      simpl. eauto.
    + rewrite POST_validated by assumption.
      destruct (resolve_schedule now (scheduledTime payload)) as [reply|ts] eqn:Hs.
      * left. simpl. split; [reflexivity|]. eapply resolve_schedule_inl, Hs.
      * right. simpl. eauto.
  - left. rewrite POST_missing by assumption. simpl. eauto.
Qed.

(** X2: What is forwarded carries the trimmed access token and message, and
    neither is empty. *)
Theorem POST_forwards_trimmed_credentials now payload call :
  (POST now (Some payload)).2 = [call] ->
  exists tok msg,
    accessToken payload = Some tok /\ message payload = Some msg
    /\ bodyParams call !! "access_token" = Some (trim tok) /\ trim tok <> ""
    /\ bodyParams call !! "message" = Some (trim msg) /\ trim msg <> "".
Proof.
  intros Hfwd.
  apply POST_forwarded_inv in Hfwd
    as (payload' & ts & [= <-] & Hreq & _ & _ & -> & _).
  required_fields Hreq. exists tok, msg.
  unfold call_of. simpl. rewrite Htok, Hmsg. simpl.
  destruct (lookup_build_params_token tok msg (link payload) (imageUrl payload) ts)
    as [-> ->].
  apply truthy_spec in Htok', Hmsg'. auto 10.
Qed.

(** X3: The forwarded form has no field beyond the six the handler knows; the
    url field is the trimmed imageUrl of a photo post and is absent
    otherwise; link and url never go together. *)
Theorem POST_forwarded_fields now payload call :
  (POST now (Some payload)).2 = [call] ->
  dom (bodyParams call)
    ⊆ ({[ "access_token"; "message"; "link"; "url"; "scheduled_publish_time";
          "published" ]} : gset string)
  /\ (forall u, imageUrl payload = Some u -> u <> "" ->
        bodyParams call !! "url" = Some (trim u))
  /\ (supplied (imageUrl payload) = false -> bodyParams call !! "url" = None)
  /\ (bodyParams call !! "link" = None \/ bodyParams call !! "url" = None).
Proof.
  intros Hfwd.
  apply POST_forwarded_inv in Hfwd
    as (payload' & ts & [= <-] & _ & _ & _ & -> & _).
  unfold call_of. simpl.
  rewrite lookup_build_params_url, lookup_build_params_link.
  split; [apply dom_build_params|]. split; [|split].
  - intros u -> Hu. apply truthy_spec in Hu. simpl. rewrite Hu. reflexivity.
  - intros ->. reflexivity.
  - destruct (supplied (imageUrl payload)); [left | right]; [|reflexivity].
    rewrite andb_false_r. reflexivity.
Qed.

(** X4: In the forwarded form, published=false and scheduled_publish_time go
    together; the timestamp is a whole second strictly later than the
    clock's; published=true is sent for an unscheduled photo only. *)
Theorem POST_forwarded_schedule_flags now payload call :
  (POST now (Some payload)).2 = [call] ->
  (is_Some (bodyParams call !! "scheduled_publish_time")
   <-> bodyParams call !! "published" = Some "false")
  /\ (forall text,
        bodyParams call !! "scheduled_publish_time" = Some text ->
        exists ts, text = String_of_number ts /\ epoch_seconds now < ts)
  /\ (bodyParams call !! "published" = Some "true"
      <-> supplied (imageUrl payload) = true
          /\ bodyParams call !! "scheduled_publish_time" = None).
Proof.
  intros Hfwd.
  apply POST_forwarded_inv in Hfwd
    as (payload' & ts & [= <-] & _ & _ & Hs & -> & _).
  unfold call_of. simpl.
  rewrite lookup_build_params_time, lookup_build_params_published.
  destruct (truthy_number ts) eqn:Hts.
  - destruct ts as [z|]; [|discriminate]. simpl.
    split; [|split].
    + split; [reflexivity | eauto].
    + intros text [= <-]. exists z. split; [reflexivity|].
      eapply resolve_schedule_inr, Hs.
    + split; [discriminate | intros [_ ?]; discriminate].
  - split; [|split].
    + split; [intros [? ?]; discriminate|].
      destruct (supplied (imageUrl payload)); discriminate.
    + discriminate.
    + destruct (supplied (imageUrl payload)); split; auto.
      * discriminate.
      * intros [? _]; discriminate.
Qed.

(** X5: When the upstream call throws, the relay answers 500 with the message
    of the error, or "Unexpected server error." when the thrown value is
    not an [Error]; the call is not repeated. *)
Theorem POST_upstream_throws now request call thrown :
  (POST now request).2 = [call] ->
  fetch call = Rejected thrown ->
  (POST now request).1
  = {| status := 500;
       body := ErrorBody match thrown with
                         | Some text => text
                         | None => "Unexpected server error."
                         end |}.
Proof.
  intros Hfwd Hthrow.
  apply POST_forwarded_inv in Hfwd as (_ & _ & _ & _ & _ & _ & _ & ->).
  rewrite Hthrow. destruct thrown; reflexivity.
Qed.

End WithEnvironment.

End RelayMoreFacts.

(** ** More properties of the dashboard controller *)

Module DashboardMoreFacts.
Import JS Dashboard DashboardFacts Notions TrimFacts.

Lemma filter_all {A} (P : A -> Prop) `{!forall x, Decision (P x)} (l : list A) :
  (forall x, x ∈ l -> P x) -> filter P l = l.
Proof.
  induction l as [|x l IH]; intros Hall; [reflexivity|].
  rewrite filter_cons_True by (apply Hall; left).
  f_equal. apply IH. intros y Hy. apply Hall. right. exact Hy.
Qed.

Lemma templates_run_delete id st :
  templates (run st (handleTemplateDelete id st))
  = filter (fun tpl => PostTemplate.id tpl <> id) (templates st).
Proof. destruct st. reflexivity. Qed.

Lemma handleTemplateSave_rejected fresh st :
  truthy (trim (templateName st)) = false \/ truthy (trim (message st)) = false ->
  handleTemplateSave fresh st = [ setError (Some "Template needs a name and message.") ].
Proof.
  intros H. unfold handleTemplateSave.
  destruct H as [-> | ->]; rewrite ?orb_true_r; reflexivity.
Qed.

Lemma templates_run_save_rejected fresh st :
  truthy (trim (templateName st)) = false \/ truthy (trim (message st)) = false ->
  templates (run st (handleTemplateSave fresh st)) = templates st.
Proof.
  intros H. rewrite handleTemplateSave_rejected by assumption.
  destruct st. reflexivity.
Qed.

(** Either a save is accepted or it is rejected. *)
Lemma save_cases st :
  (truthy (trim (templateName st)) = true /\ truthy (trim (message st)) = true)
  \/ (truthy (trim (templateName st)) = false \/ truthy (trim (message st)) = false).
Proof.
  destruct (truthy (trim (templateName st))), (truthy (trim (message st))); auto.
Qed.

(** *** The template library *)

Lemma names_filter_NoDup (P : PostTemplate.t -> Prop) `{!forall x, Decision (P x)} l :
  NoDup (names l) -> NoDup (names (filter P l)).
Proof.
  intros Hl. apply (sublist_NoDup _ (names l)); [exact Hl|].
  unfold names. apply fmap_sublist, sublist_filter.
Qed.

(** X6: Saving and deleting keep the names of the library pairwise distinct. *)
Theorem template_names_stay_unique (st : State) (fresh id : string) :
  NoDup (names (templates st)) ->
  NoDup (names (templates (run st (handleTemplateSave fresh st))))
  /\ NoDup (names (templates (run st (handleTemplateDelete id st)))).
Proof.
  intros Hl. split.
  - destruct (save_cases st) as [[Hn Hm] | Hrej].
    + rewrite templates_run_save by assumption.
      unfold names. rewrite fmap_app. apply NoDup_app. split; [|split].
      * apply names_filter_NoDup, Hl.
      * intros n Hin Hnew. simpl in Hnew. apply list_elem_of_singleton in Hnew.
        apply list_elem_of_fmap in Hin as (tpl & -> & Htpl).
        apply list_elem_of_filter in Htpl as [Hne _]. exact (Hne Hnew).
      * apply NoDup_singleton.
    + rewrite templates_run_save_rejected by assumption. exact Hl.
  - rewrite templates_run_delete. apply names_filter_NoDup, Hl.
Qed.

Lemma normal_or_undefined s : normal_field (or_undefined (trim s)).
Proof.
  unfold normal_field, or_undefined. intros text.
  destruct (truthy (trim s)) eqn:Hs; [|discriminate].
  intros [= <-]. split; [apply RelayFacts.truthy_spec, Hs | apply trim_idempotent].
Qed.

(** X7: Every template of a library built by saves and deletes is in that
    normal form: both handlers keep it. *)
Theorem templates_stay_normal (st : State) (fresh id : string) :
  Forall normal (templates st) ->
  Forall normal (templates (run st (handleTemplateSave fresh st)))
  /\ Forall normal (templates (run st (handleTemplateDelete id st))).
Proof.
  intros Hl. split.
  - destruct (save_cases st) as [[Hn Hm] | Hrej].
    + rewrite templates_run_save by assumption.
      apply Forall_app. split.
      * apply Forall_forall. intros tpl Htpl.
        apply list_elem_of_filter in Htpl as [_ Htpl].
        revert tpl Htpl. apply Forall_forall, Hl.
      * apply Forall_singleton. unfold normal. simpl.
        split; [apply RelayFacts.truthy_spec, Hn|].
        split; [apply trim_idempotent|].
        split; [apply RelayFacts.truthy_spec, Hm|].
        split; apply normal_or_undefined.
    + rewrite templates_run_save_rejected by assumption. exact Hl.
  - rewrite templates_run_delete.
    apply Forall_forall. intros tpl Htpl.
    apply list_elem_of_filter in Htpl as [_ Htpl].
    revert tpl Htpl. apply Forall_forall, Hl.
Qed.

(** X8: Deleting the template a save just wrote leaves the library without
    the templates that bore its name or its id; when the name was new and
    the id unused, the library is the one before the save. *)
Theorem save_then_delete (st : State) (fresh : string) :
  truthy (trim (templateName st)) = true ->
  truthy (trim (message st)) = true ->
  let st1 := run st (handleTemplateSave fresh st) in
  let st2 := run st1 (handleTemplateDelete fresh st1) in
  templates st2
  = filter (fun tpl => PostTemplate.id tpl <> fresh)
      (filter (fun tpl => PostTemplate.name tpl <> trim (templateName st))
              (templates st))
  /\ ((forall tpl, tpl ∈ templates st ->
         PostTemplate.name tpl <> trim (templateName st)
         /\ PostTemplate.id tpl <> fresh) ->
      templates st2 = templates st).
Proof.
  intros Hn Hm st1 st2. subst st2. rewrite templates_run_delete.
  subst st1. rewrite templates_run_save by assumption.
  rewrite filter_app, filter_cons_False, filter_nil, app_nil_r
    by (simpl; intros H; apply H; reflexivity).
  split; [reflexivity|].
  intros Hnew. rewrite !filter_all; [reflexivity| |].
  - intros tpl Htpl. apply Hnew, Htpl.
  - intros tpl Htpl. apply list_elem_of_filter in Htpl as [_ Htpl].
    apply Hnew, Htpl.
Qed.

(** X9: Applying the template a save just wrote puts back the message as it
    was typed, and the link and the image URL trimmed. *)
Theorem save_then_apply (st : State) (fresh : string) :
  truthy (trim (templateName st)) = true ->
  truthy (trim (message st)) = true ->
  let st1 := run st (handleTemplateSave fresh st) in
  exists saved,
    last (templates st1) = Some saved
    /\ PostTemplate.id saved = fresh
    /\ message (run st1 (applyTemplate saved)) = message st
    /\ link (run st1 (applyTemplate saved)) = trim (link st)
    /\ imageUrl (run st1 (applyTemplate saved)) = trim (imageUrl st).
Proof.
  intros Hn Hm st1. eexists. subst st1.
  rewrite templates_run_save by assumption. rewrite last_snoc.
  split; [reflexivity|]. split; [reflexivity|].
  assert (Hor : forall s, nullish (or_undefined (trim s)) "" = trim s).
  { intros s. unfold or_undefined.
    destruct (truthy (trim s)) eqn:Hs; [reflexivity|].
    unfold truthy in Hs. apply negb_false_iff, String.eqb_eq in Hs.
    rewrite Hs. reflexivity. }
  unfold applyTemplate. simpl. rewrite !Hor.
  destruct (run st (handleTemplateSave fresh st)). simpl. auto.
Qed.

(** X10: A save clears the name field, so a second save right after it is
    rejected and leaves the library as the first one left it. *)
Theorem save_twice_without_retyping (st : State) (id1 id2 : string) :
  let st1 := run st (handleTemplateSave id1 st) in
  let st2 := run st1 (handleTemplateSave id2 st1) in
  templates st2 = templates st1
  /\ error_banner st2 = Some "Template needs a name and message.".
Proof.
  intros st1 st2.
  assert (Hblank : truthy (trim (templateName st1)) = false
                   \/ truthy (trim (message st1)) = false).
  { subst st1. destruct (save_cases st) as [[Hn Hm] | Hrej].
    - left. unfold handleTemplateSave. rewrite Hn, Hm. destruct st. reflexivity.
    - rewrite handleTemplateSave_rejected by assumption.
      destruct st. simpl in *. exact Hrej. }
  subst st2. rewrite handleTemplateSave_rejected by assumption.
  destruct st1. split; reflexivity.
Qed.

End DashboardMoreFacts.

(** ** More properties of the queue *)

Module QueueFacts.
Import JS Dashboard DashboardFacts TrimFacts Events.

(** X11: Settling for two different identifiers gives the same queue in either
    order. *)
Theorem settle_queue_commutes (a b : string) (ra rb : RelayResult.t)
    (q : list QueuedPost.t) :
  a <> b ->
  settle_queue a ra (settle_queue b rb q) = settle_queue b rb (settle_queue a ra q).
Proof.
  intros Hab. unfold settle_queue. rewrite <- !list_fmap_compose.
  apply list_fmap_ext. intros i post _. simpl.
  destruct (String.eqb (QueuedPost.id post) a) eqn:Ha,
           (String.eqb (QueuedPost.id post) b) eqn:Hb;
    simpl; rewrite ?Ha, ?Hb; try reflexivity.
  apply String.eqb_eq in Ha, Hb. congruence.
Qed.

(** X12: Settling twice for one identifier keeps the later result only, and
    settling never changes the identifiers or their order. *)
Theorem settle_queue_last_wins (a : string) (r1 r2 : RelayResult.t)
    (q : list QueuedPost.t) :
  settle_queue a r2 (settle_queue a r1 q) = settle_queue a r2 q
  /\ QueuedPost.id <$> settle_queue a r1 q = QueuedPost.id <$> q.
Proof.
  unfold settle_queue. rewrite <- !list_fmap_compose. split.
  - apply list_fmap_ext. intros i post _. simpl.
    destruct (String.eqb (QueuedPost.id post) a) eqn:Ha; simpl; rewrite Ha;
      reflexivity.
  - apply list_fmap_ext. intros i post _. simpl.
    destruct (String.eqb (QueuedPost.id post) a); reflexivity.
Qed.

(** Settling for an identifier no entry bears changes nothing. *)
Lemma settle_queue_unused (a : string) (result : RelayResult.t)
    (q : list QueuedPost.t) :
  (forall post, post ∈ q -> QueuedPost.id post <> a) ->
  settle_queue a result q = q.
Proof.
  intros Hall. unfold settle_queue. rewrite <- (list_fmap_id q) at 2.
  apply list_fmap_ext. intros i post Hi. simpl.
  assert (Hne : QueuedPost.id post <> a).
  { apply Hall. eapply list_elem_of_lookup_2, Hi. }
  apply String.eqb_neq in Hne. rewrite Hne. reflexivity.
Qed.

Section Submission.

Variable toISOString : Z -> string.

#[local] Abbreviation enqueuePost := (Dashboard.enqueuePost toISOString).

(** The three outcomes of [enqueuePost]. *)
Lemma enqueuePost_cases fresh instant r :
  enqueuePost fresh instant r
    = [ setError (Some "Page ID, access token, and message are required.") ]
  \/ enqueuePost fresh instant r
    = [ setError (Some "Scheduled time must be in the future.") ]
  \/ (truthy (trim (pageId (cells r))) = true
      /\ truthy (trim (accessToken (cells r))) = true
      /\ truthy (trim (message (cells r))) = true
      /\ exists queued payload text,
           enqueuePost fresh instant r
           = [ setQueue_prepend queued; setError None; setSuccess (Some text);
               startTransition payload fresh ]
           /\ text <> ""
           /\ QueuedPost.id queued = fresh
           /\ QueuedPost.status queued = pending
           /\ QueuedPost.response queued = None
           /\ QueuedPost.message queued = PublishPayload.message payload
           /\ QueuedPost.link queued = PublishPayload.link payload
           /\ QueuedPost.imageUrl queued = PublishPayload.imageUrl payload
           /\ QueuedPost.scheduledTime queued = PublishPayload.scheduledTime payload
           /\ QueuedPost.mode queued = PublishPayload.mode payload
           /\ PublishPayload.mode payload = mode (cells r)
           /\ PublishPayload.pageId payload = trim (pageId (cells r))
           /\ PublishPayload.accessToken payload = trim (accessToken (cells r))
           /\ PublishPayload.message payload = trim (message (cells r))
           /\ PublishPayload.scheduledTime payload
              = match mode (cells r) with
                | now => None
                | schedule => Some (scheduledTime (cells r))
                end).
Proof.
  unfold enqueuePost, Dashboard.enqueuePost.
  destruct (truthy (trim (pageId (cells r)))); [|left; reflexivity].
  destruct (truthy (trim (accessToken (cells r)))); [|left; reflexivity].
  destruct (truthy (trim (message (cells r)))); [|left; reflexivity].
  simpl. destruct (_ && _); [right; left; reflexivity|].
  right. right. repeat (split; [reflexivity|]).
  do 3 eexists. split; [reflexivity|].
  split; [destruct (bool_decide _); discriminate|].
  repeat (split; [reflexivity|]).
  destruct (mode (cells r)); reflexivity.
Qed.

(** The payload of the relay call a submission issued. *)
Lemma relay_call_payload fresh instant r payload queuedId :
  relay_calls (enqueuePost fresh instant r) = [ (payload, queuedId) ] ->
  queuedId = fresh
  /\ truthy (trim (pageId (cells r))) = true
  /\ truthy (trim (accessToken (cells r))) = true
  /\ truthy (trim (message (cells r))) = true
  /\ PublishPayload.pageId payload = trim (pageId (cells r))
  /\ PublishPayload.accessToken payload = trim (accessToken (cells r))
  /\ PublishPayload.message payload = trim (message (cells r))
  /\ PublishPayload.mode payload = mode (cells r)
  /\ PublishPayload.scheduledTime payload
     = match mode (cells r) with
       | now => None
       | schedule => Some (scheduledTime (cells r))
       end
  /\ exists queued text,
       enqueuePost fresh instant r
       = [ setQueue_prepend queued; setError None; setSuccess (Some text);
           startTransition payload fresh ]
       /\ QueuedPost.id queued = fresh.
Proof.
  destruct (enqueuePost_cases fresh instant r)
    as [-> | [-> | (Hp & Ht & Hm & queued & payload' & text & -> & _ & Hid & _
                   & _ & _ & _ & _ & _ & _ & Hmode & Hpp & Hpt & Hpm & Hps)]];
    [discriminate | discriminate |].
  simpl. intros [= <- <-]. eauto 15.
Qed.

(** X13: A submission never edits the composer, the credentials or the
    library, and it leaves the queue as it was or with one pending entry,
    under the fresh id, in front of it. *)
Theorem enqueuePost_only_prepends fresh instant r :
  let st := cells r in
  let st' := run st (enqueuePost fresh instant r) in
  (queue st' = queue st
   \/ exists queued,
        queue st' = queued :: queue st
        /\ QueuedPost.id queued = fresh
        /\ QueuedPost.status queued = pending)
  /\ pageId st' = pageId st /\ accessToken st' = accessToken st
  /\ mode st' = mode st /\ message st' = message st /\ link st' = link st
  /\ imageUrl st' = imageUrl st /\ scheduledTime st' = scheduledTime st
  /\ templates st' = templates st /\ templateName st' = templateName st.
Proof.
  intros st st'. subst st st'.
  destruct (enqueuePost_cases fresh instant r)
    as [-> | [-> | (_ & _ & _ & queued & payload & text & -> & _ & Hid & Hst & _)]];
    destruct (cells r); simpl; (split; [|auto 10]); eauto.
Qed.

(** X14: Queue entries and relay calls are created in pairs: a call is issued
    only together with one pending entry that bears the call's id and the
    payload's fields; the payload sends scheduledTime exactly in schedule
    mode; and its page id, token and message are trimmed and non-empty. *)
Theorem enqueuePost_pairs_entry_with_call fresh instant r payload queuedId :
  relay_calls (enqueuePost fresh instant r) = [ (payload, queuedId) ] ->
  (exists queued,
      created_entries (enqueuePost fresh instant r) = [ queued ]
      /\ QueuedPost.id queued = queuedId
      /\ QueuedPost.status queued = pending
      /\ QueuedPost.message queued = PublishPayload.message payload
      /\ QueuedPost.link queued = PublishPayload.link payload
      /\ QueuedPost.imageUrl queued = PublishPayload.imageUrl payload
      /\ QueuedPost.scheduledTime queued = PublishPayload.scheduledTime payload)
  /\ (is_Some (PublishPayload.scheduledTime payload)
      <-> PublishPayload.mode payload = schedule)
  /\ PublishPayload.pageId payload <> ""
  /\ PublishPayload.accessToken payload <> ""
  /\ PublishPayload.message payload <> ""
  /\ trim (PublishPayload.pageId payload) = PublishPayload.pageId payload
  /\ trim (PublishPayload.accessToken payload) = PublishPayload.accessToken payload
  /\ trim (PublishPayload.message payload) = PublishPayload.message payload.
Proof.
  destruct (enqueuePost_cases fresh instant r)
    as [-> | [-> | (Hp & Ht & Hm & queued & payload' & text & -> & _ & Hid & Hst
                   & _ & Hqm & Hql & Hqi & Hqs & _ & Hmode & Hpp & Hpt & Hpm & Hps)]];
    [discriminate | discriminate |].
  simpl. intros [= <- <-].
  split; [exists queued; auto 10|].
  split.
  { rewrite Hps, Hmode. destruct (mode (cells r)); split;
      try discriminate; eauto. intros [? ?]; discriminate. }
  rewrite Hpp, Hpt, Hpm, !trim_idempotent.
  apply RelayFacts.truthy_spec in Hp, Ht, Hm. auto 10.
Qed.

(** X15: When the fresh id is borne by no older entry, settling the call of a
    submission marks the new entry and leaves the older ones as they
    were. *)
Theorem submit_then_settle fresh instant r result :
  (forall post, post ∈ queue (cells r) -> QueuedPost.id post <> fresh) ->
  relay_calls (enqueuePost fresh instant r) <> [] ->
  let st1 := run (cells r) (enqueuePost fresh instant r) in
  let st2 := run st1 (flat_map (fun a => resume a result) (enqueuePost fresh instant r)) in
  exists queued,
    QueuedPost.id queued = fresh
    /\ queue st1 = queued :: queue (cells r)
    /\ queue st2 = settled result queued :: queue (cells r)
    /\ QueuedPost.status (settled result queued)
       = (if RelayResult.ok result then success else error)
    /\ QueuedPost.response (settled result queued) = Some (RelayResult.data result).
Proof.
  intros Hfresh Hcall st1 st2. subst st1 st2.
  destruct (enqueuePost_cases fresh instant r)
    as [H | [H | (_ & _ & _ & queued & payload & text & H & _ & Hid & _)]];
    rewrite H in *; [contradiction Hcall; reflexivity..|].
  exists queued. remember (cells r) as st eqn:Hst. clear Hst H Hcall.
  destruct st as [? ? ? ? ? ? ? ? ? q ? ?]. simpl in *.
  split; [exact Hid|]. split; [reflexivity|]. split; [|split; reflexivity].
  rewrite Hid, String.eqb_refl. f_equal.
  apply settle_queue_unused, Hfresh.
Qed.

(** X16: After a click on the submit button exactly one of the two feedback
    cells is set, and the banner shows it: the success text in emerald
    when a post was queued, the error text in red when none was. *)
Theorem click_submit_feedback fresh instant r :
  let st' := run (cells r) (click_submit toISOString fresh instant r) in
  (exists text,
      error_banner st' = None /\ success_banner st' = Some text
      /\ banner st' = Some (emerald, text)
      /\ length (queue st') = S (length (queue (cells r))))
  \/ (exists text,
      error_banner st' = Some text /\ success_banner st' = None
      /\ banner st' = Some (red, text)
      /\ queue st' = queue (cells r)).
Proof.
  intros st'. subst st'. unfold click_submit.
  destruct (enqueuePost_cases fresh instant r)
    as [-> | [-> | (_ & _ & _ & queued & payload & text & -> & Htext & _)]].
  - right. eexists. destruct (cells r). simpl. repeat split.
  - right. eexists. destruct (cells r). simpl. repeat split.
  - left. exists text. destruct (cells r). simpl.
    repeat split. unfold banner, FeedbackBanner. simpl.
    apply RelayFacts.truthy_spec in Htext. rewrite Htext. reflexivity.
Qed.

End Submission.

(** *** The memoised [canSchedule] *)

Section Memo.

Variable parseISO : string -> option Z.
Variable toISOString : Z -> string.

#[local] Abbreviation rerender := (Dashboard.rerender parseISO).
#[local] Abbreviation renders := (Events.renders parseISO).
#[local] Abbreviation enqueuePost := (Dashboard.enqueuePost toISOString).

Lemma rerender_memo_current instant r actions :
  memo_current (rerender instant r actions).
Proof.
  unfold memo_current, rerender, Dashboard.rerender, useMemo_canSchedule. simpl.
  case_decide as Hdeps; [exact Hdeps | reflexivity].
Qed.

Lemma reduce_keeps_schedule st a :
  edits_schedule a = false ->
  mode (reduce st a) = mode st /\ scheduledTime (reduce st a) = scheduledTime st.
Proof. destruct st, a; simpl; intros H; try discriminate H; auto. Qed.

Lemma run_keeps_schedule st actions :
  forallb (fun a => negb (edits_schedule a)) actions = true ->
  mode (run st actions) = mode st /\ scheduledTime (run st actions) = scheduledTime st.
Proof.
  revert st. induction actions as [|a actions IH]; intros st Hall; [auto|].
  simpl in Hall. apply andb_true_iff in Hall as [Ha Hall].
  apply negb_true_iff in Ha.
  destruct (reduce_keeps_schedule st a Ha) as [Hm Hs].
  destruct (IH (reduce st a) Hall) as [Hm' Hs'].
  unfold run in *. simpl. rewrite Hm', Hs'. auto.
Qed.

(** Renders that change neither dependency return the cached value. *)
Lemma renders_keep_canSchedule r steps :
  memo_current r ->
  Forall (fun step => forallb (fun a => negb (edits_schedule a)) step.2 = true) steps ->
  canSchedule (renders r steps) = canSchedule r
  /\ mode (cells (renders r steps)) = mode (cells r)
  /\ scheduledTime (cells (renders r steps)) = scheduledTime (cells r).
Proof.
  intros Hcur Hsteps. revert r Hcur.
  induction Hsteps as [|[instant actions] steps Hstep _ IH]; intros r Hcur; [auto|].
  simpl in Hstep. destruct (run_keeps_schedule (cells r) actions Hstep) as [Hm Hs].
  destruct (rerender_keeps_canSchedule parseISO instant r actions Hcur Hm Hs)
    as [Hvalue _].
  destruct (IH (rerender instant r actions) (rerender_memo_current instant r actions))
    as (Hv & Hm' & Hs').
  unfold renders, Events.renders in *. simpl.
  rewrite Hv, Hm', Hs'. simpl. auto.
Qed.

(** X26: After "Schedule" was clicked, from "now" mode, while the default time
    was in the future, [canSchedule] stays true through every later render
    that changes neither the mode nor the scheduled time, whatever the
    clock; with non-blank credentials and message a submission then
    issues its relay call at any instant. *)
Theorem canSchedule_frozen_after_schedule_click
    (r0 : Rendered) (clicked : Z) (defaultScheduled : string) (due : Z)
    (steps : list (Z * list Action)) :
  memo_current r0 ->
  mode (cells r0) = now ->
  parseISO defaultScheduled = Some due ->
  clicked < due ->
  Forall (fun step => forallb (fun a => negb (edits_schedule a)) step.2 = true) steps ->
  let r1 := rerender clicked r0 (click_schedule defaultScheduled) in
  let r2 := renders r1 steps in
  mode (cells r2) = schedule
  /\ scheduledTime (cells r2) = defaultScheduled
  /\ canSchedule r2 = true
  /\ (truthy (trim (pageId (cells r2))) = true ->
      truthy (trim (accessToken (cells r2))) = true ->
      truthy (trim (message (cells r2))) = true ->
      forall fresh instant,
      exists payload,
        relay_calls (enqueuePost fresh instant r2) = [ (payload, fresh) ]
        /\ PublishPayload.scheduledTime payload = Some defaultScheduled).
Proof.
  intros Hcur Hnow Hparse Hfuture Hsteps r1 r2.
  assert (Hrun : mode (run (cells r0) (click_schedule defaultScheduled)) = schedule
                 /\ scheduledTime (run (cells r0) (click_schedule defaultScheduled))
                    = defaultScheduled).
  { destruct (cells r0). split; reflexivity. }
  destruct Hrun as [Hrm Hrs].
  assert (Hm1 : mode (cells r1) = schedule) by exact Hrm.
  assert (Hs1 : scheduledTime (cells r1) = defaultScheduled) by exact Hrs.
  assert (Hv1 : canSchedule r1 = true).
  { subst r1. rewrite rerender_recomputes_canSchedule.
    - rewrite Hrm, Hrs. simpl. rewrite Hparse. simpl. apply Z.ltb_lt, Hfuture.
    - unfold memo_current in Hcur. rewrite Hcur, Hnow, Hrm. discriminate. }
  destruct (renders_keep_canSchedule r1 steps
              (rerender_memo_current clicked r0 (click_schedule defaultScheduled))
              Hsteps) as (Hv & Hm & Hs).
  fold r2 in Hv, Hm, Hs.
  assert (Hv2 : canSchedule r2 = true) by congruence.
  assert (Hm2 : mode (cells r2) = schedule) by congruence.
  assert (Hs2 : scheduledTime (cells r2) = defaultScheduled) by congruence.
  split; [exact Hm2|]. split; [exact Hs2|]. split; [exact Hv2|].
  intros Hp Ht Hmsg fresh instant.
  unfold enqueuePost, Dashboard.enqueuePost.
  rewrite Hp, Ht, Hmsg, Hv2, Hm2, Hs2. simpl.
  eexists. split; reflexivity.
Qed.

End Memo.

End QueueFacts.

(** ** The dashboard and the relay together *)

Module EndToEndFacts.
Import JS Dashboard DashboardFacts TrimFacts Events Client QueueFacts.

Lemma invalid_mode_literal m : Relay.invalid_mode (Some (mode_literal m)) = false.
Proof. destruct m; reflexivity. Qed.

Lemma required_present_to_request payload :
  PublishPayload.pageId payload <> "" ->
  PublishPayload.accessToken payload <> "" ->
  PublishPayload.message payload <> "" ->
  trim (PublishPayload.pageId payload) = PublishPayload.pageId payload ->
  trim (PublishPayload.accessToken payload) = PublishPayload.accessToken payload ->
  trim (PublishPayload.message payload) = PublishPayload.message payload ->
  Relay.required_present (to_request payload) = true.
Proof.
  intros Hp Ht Hm Hp' Ht' Hm'. unfold Relay.required_present, to_request, blank.
  simpl. rewrite Hp', Ht', Hm'.
  apply RelayFacts.truthy_spec in Hp, Ht, Hm. rewrite Hp, Ht, Hm. reflexivity.
Qed.

Section Route.

Variable Date_parse : string -> option Z.
Variable graph : Relay.Outbound -> Relay.FetchOutcome.
Variable new_URL : string -> Relay.URL.
Variable Response_error : Z -> string.
Variable reason_phrase : Z -> string.
Variable toISOString : Z -> string.

#[local] Abbreviation POST :=
  (Relay.POST Date_parse graph new_URL Response_error).
#[local] Abbreviation relay_reply :=
  (Client.relay_reply Date_parse graph new_URL Response_error).
#[local] Abbreviation route :=
  (Client.route Date_parse graph new_URL Response_error reason_phrase).
#[local] Abbreviation transition :=
  (Client.transition Date_parse graph new_URL Response_error reason_phrase).
#[local] Abbreviation call_of := (Relay.call_of new_URL).
#[local] Abbreviation map_response := (Relay.map_response Response_error).
#[local] Abbreviation map_outcome := (Relay.map_outcome Response_error).
#[local] Abbreviation enqueuePost := (Dashboard.enqueuePost toISOString).

(** The reply to a resolved or rejected upstream call is an error body,
    or an id under status 200. *)
Lemma map_outcome_shape o :
  (exists text, Relay.body (map_outcome o) = Relay.ErrorBody text)
  \/ (exists i, map_outcome o
               = {| Relay.status := 200; Relay.body := Relay.IdBody i |}).
Proof.
  destruct o as [rsp|thrown]; simpl; [|left; eauto].
  unfold Relay.map_response.
  assert (Hrefusal : forall st text,
             exists text',
               Relay.body (if Relay.throws_on_status st
                           then Relay.failure 500 (Response_error st)
                           else Relay.failure st text)
               = Relay.ErrorBody text').
  { intros st text. destruct (Relay.throws_on_status st); simpl; eauto. }
  destruct (Relay.id _) as [i|]; [|left; apply Hrefusal].
  destruct (_ || _); [left; apply Hrefusal | right; eauto].
Qed.

(** The relay sends an id only with status 200; every other reply is an
    error body. *)
Lemma reply_shape server_now request :
  (exists text, Relay.body (POST server_now request).1 = Relay.ErrorBody text)
  \/ (exists i, (POST server_now request).1
               = {| Relay.status := 200; Relay.body := Relay.IdBody i |}).
Proof.
  destruct request as [payload|]; [|left; simpl; eauto].
  destruct (Relay.required_present payload) eqn:Hreq.
  - destruct (Relay.invalid_mode (Relay.mode payload)) eqn:Hmode.
    + left. RelayFacts.required_fields Hreq. unfold POST, Relay.POST.
      rewrite Hpid, Htok, Hmsg, Hpid', Htok', Hmsg'. simpl. rewrite Hmode.
      simpl. eauto.
    + rewrite RelayFacts.POST_validated by assumption.
      destruct (Relay.resolve_schedule Date_parse server_now
                  (Relay.scheduledTime payload)) as [early|ts] eqn:Hs.
      * left. eapply RelayMoreFacts.resolve_schedule_inl, Hs.
      * apply map_outcome_shape.
  - left. rewrite RelayFacts.POST_missing by assumption. simpl. eauto.
Qed.

(** What the client makes of an error body and of an id. *)
Lemma publishToMeta_on_error server_now payload code text :
  relay_reply server_now payload = Relay.failure code text ->
  publishToMeta (route server_now) payload
  = {| RelayResult.ok := (200 <=? code) && (code <=? 299);
       RelayResult.data := {| Response.id := None; Response.error := Some text |} |}.
Proof.
  intros Hreply. unfold publishToMeta, route, Client.route, response_ok.
  rewrite Hreply. simpl. destruct (_ && _); reflexivity.
Qed.

Lemma publishToMeta_on_id server_now payload i :
  relay_reply server_now payload
  = {| Relay.status := 200; Relay.body := Relay.IdBody i |} ->
  publishToMeta (route server_now) payload
  = {| RelayResult.ok := true;
       RelayResult.data := {| Response.id := Some i; Response.error := None |} |}.
Proof.
  intros Hreply. unfold publishToMeta, route, Client.route, response_ok.
  rewrite Hreply. reflexivity.
Qed.

(** X17: Through the route the client reads the relay's reply exactly: [ok] is
    whether the relay's status is 2xx and [data] is the relay's body; the
    reason phrase of the transport is never used. *)
Theorem publishToMeta_reads_relay_reply server_now payload :
  let reply := relay_reply server_now payload in
  let result := publishToMeta (route server_now) payload in
  RelayResult.ok result
    = (200 <=? Relay.status reply) && (Relay.status reply <=? 299)
  /\ RelayResult.data result
     = match Relay.body reply with
       | Relay.IdBody i => {| Response.id := Some i; Response.error := None |}
       | Relay.ErrorBody text => {| Response.id := None; Response.error := Some text |}
       end.
Proof.
  intros reply result. subst reply result.
  unfold publishToMeta, route, Client.route, response_ok. simpl.
  destruct (reply_shape server_now (Some (to_request payload)))
    as [(text & Hbody) | (i & Hreply)]; unfold relay_reply, Client.relay_reply.
  - rewrite Hbody. destruct (_ && _); split; reflexivity.
  - rewrite Hreply. simpl. split; reflexivity.
Qed.

(** A payload the dashboard submits passes the first two checks of the
    relay. *)
Lemma payload_validated fresh instant r payload queuedId :
  relay_calls (enqueuePost fresh instant r) = [ (payload, queuedId) ] ->
  Relay.required_present (to_request payload) = true
  /\ Relay.invalid_mode (Relay.mode (to_request payload)) = false.
Proof.
  intros Hcalls.
  destruct (relay_call_payload toISOString fresh instant r payload queuedId Hcalls)
    as (_ & Hp & Ht & Hm & Hpp & Hpt & Hpm & _).
  split; [|apply invalid_mode_literal].
  apply required_present_to_request; rewrite ?Hpp, ?Hpt, ?Hpm;
    try apply trim_idempotent; apply RelayFacts.truthy_spec; assumption.
Qed.

(** In "now" mode the relay forwards it, whatever its clock. *)
Lemma now_payload_forwarded fresh instant r payload queuedId server_now :
  relay_calls (enqueuePost fresh instant r) = [ (payload, queuedId) ] ->
  mode (cells r) = now ->
  POST server_now (Some (to_request payload))
  = (map_outcome (graph (call_of (to_request payload) None)),
     [ call_of (to_request payload) None ]).
Proof.
  intros Hcalls Hnow.
  destruct (payload_validated fresh instant r payload queuedId Hcalls) as [Hreq Hmode].
  destruct (relay_call_payload toISOString fresh instant r payload queuedId Hcalls)
    as (_ & _ & _ & _ & _ & _ & _ & _ & Hps & _).
  rewrite Hnow in Hps.
  rewrite RelayFacts.POST_validated by assumption.
  cbn [to_request Relay.scheduledTime]. rewrite Hps.
  rewrite RelayFacts.resolve_schedule_absent by reflexivity. reflexivity.
Qed.

(** X18: A payload the dashboard submits passes the relay's required-field and
    mode checks; in "now" mode it is always forwarded upstream, without a
    timestamp, and with the message the dashboard queued. *)
Theorem dashboard_payload_passes_relay_checks fresh instant r payload queuedId :
  relay_calls (enqueuePost fresh instant r) = [ (payload, queuedId) ] ->
  Relay.required_present (to_request payload) = true
  /\ Relay.invalid_mode (Relay.mode (to_request payload)) = false
  /\ (mode (cells r) = now ->
      forall server_now,
      exists call,
        (POST server_now (Some (to_request payload))).2 = [call]
        /\ Relay.bodyParams call !! "scheduled_publish_time" = None
        /\ Relay.bodyParams call !! "message" = Some (PublishPayload.message payload)).
Proof.
  intros Hcalls.
  destruct (payload_validated fresh instant r payload queuedId Hcalls) as [Hreq Hmode].
  split; [exact Hreq|]. split; [exact Hmode|].
  intros Hnow server_now.
  rewrite (now_payload_forwarded fresh instant r payload queuedId server_now)
    by assumption.
  eexists. split; [reflexivity|].
  unfold Relay.call_of. cbn [Relay.bodyParams to_request Relay.accessToken
                             Relay.message Relay.link Relay.imageUrl nullish].
  rewrite RelayMoreFacts.lookup_build_params_time. cbn [Relay.truthy_number].
  destruct (RelayMoreFacts.lookup_build_params_token
              (PublishPayload.accessToken payload) (PublishPayload.message payload)
              (PublishPayload.link payload) (PublishPayload.imageUrl payload) None)
    as [_ ->].
  destruct (relay_call_payload toISOString fresh instant r payload queuedId Hcalls)
    as (_ & _ & _ & _ & _ & _ & Hpm & _).
  rewrite Hpm, trim_idempotent. auto.
Qed.

(** What a whole transition leaves, for a submission under an unused id:
    the new entry settled with the client's reading of the relay's reply,
    in front of the older entries; and the error cell cleared or set. *)
Lemma transition_outcome fresh instant r server_now payload :
  (forall post, post ∈ queue (cells r) -> QueuedPost.id post <> fresh) ->
  relay_calls (enqueuePost fresh instant r) = [ (payload, fresh) ] ->
  let result := publishToMeta (route server_now) payload in
  let st1 := run (cells r) (enqueuePost fresh instant r) in
  let st2 := run st1 (flat_map (transition server_now) (enqueuePost fresh instant r)) in
  exists queued,
    QueuedPost.id queued = fresh
    /\ queue st2 = settled result queued :: queue (cells r)
    /\ error_banner st2
       = (if RelayResult.ok result then None
          else Some (nullish (Response.error (RelayResult.data result))
                             "Meta API error.")).
Proof.
  intros Hfresh Hcalls result st1 st2.
  destruct (relay_call_payload toISOString fresh instant r payload fresh Hcalls)
    as (_ & _ & _ & _ & _ & _ & _ & _ & _ & queued & text & Hactions & Hid).
  exists queued. split; [exact Hid|].
  subst st2 st1. rewrite Hactions. fold result.
  remember (cells r) as st eqn:Hst. clear Hst Hactions Hcalls.
  destruct st as [? ? ? ? ? ? ? ? ? q ? ?]. simpl in *.
  rewrite Hid, String.eqb_refl. subst result.
  rewrite (settle_queue_unused fresh _ q Hfresh). split; reflexivity.
Qed.

(** X19: A scheduled post whose time the relay finds not later than its own
    clock never reaches upstream, and (no older entry bearing the fresh
    id) ends as an error entry carrying the relay's message, which the
    banner shows in red. *)
Theorem late_schedule_ends_as_error fresh instant r server_now payload parsed :
  (forall post, post ∈ queue (cells r) -> QueuedPost.id post <> fresh) ->
  relay_calls (enqueuePost fresh instant r) = [ (payload, fresh) ] ->
  mode (cells r) = schedule ->
  scheduledTime (cells r) <> "" ->
  Date_parse (scheduledTime (cells r)) = Some parsed ->
  Relay.epoch_seconds parsed <= Relay.epoch_seconds server_now ->
  let st1 := run (cells r) (enqueuePost fresh instant r) in
  let st2 := run st1 (flat_map (transition server_now) (enqueuePost fresh instant r)) in
  (POST server_now (Some (to_request payload))).2 = []
  /\ (exists entry,
        queue st2 = entry :: queue (cells r)
        /\ QueuedPost.id entry = fresh
        /\ QueuedPost.status entry = error
        /\ QueuedPost.response entry
           = Some {| Response.id := None;
                     Response.error := Some "scheduledTime must be in the future." |})
  /\ banner st2 = Some (red, "scheduledTime must be in the future.").
Proof.
  intros Hfresh Hcalls Hmode Hne Hparse Hlate st1 st2.
  destruct (payload_validated fresh instant r payload fresh Hcalls) as [Hreq Hvalid].
  destruct (relay_call_payload toISOString fresh instant r payload fresh Hcalls)
    as (_ & _ & _ & _ & _ & _ & _ & _ & Hps & _).
  rewrite Hmode in Hps.
  assert (Hpost : POST server_now (Some (to_request payload))
                  = (Relay.failure 400 "scheduledTime must be in the future.", [])).
  { rewrite RelayFacts.POST_validated by assumption.
    cbn [to_request Relay.scheduledTime]. rewrite Hps.
    unfold Relay.resolve_schedule. apply RelayFacts.truthy_spec in Hne.
    rewrite Hne, Hparse.
    destruct (Z.leb_spec (Relay.epoch_seconds parsed) (Relay.epoch_seconds server_now));
      [reflexivity | lia]. }
  split; [rewrite Hpost; reflexivity|].
  destruct (transition_outcome fresh instant r server_now payload Hfresh Hcalls)
    as (queued & Hqid & Hq2 & Herr).
  rewrite (publishToMeta_on_error server_now payload 400
             "scheduledTime must be in the future.") in Hq2, Herr
    by (unfold relay_reply, Client.relay_reply; rewrite Hpost; reflexivity).
  subst st1 st2. split.
  - eexists. split; [exact Hq2|]. simpl. auto.
  - unfold banner. rewrite Herr. reflexivity.
Qed.

(** X20: An immediate post the upstream accepts with status 200 and a non-empty
    id ends (no older entry bearing the fresh id) as a success entry
    carrying that id, with no error shown. *)
Theorem accepted_post_ends_as_success fresh instant r server_now payload rsp i :
  (forall post, post ∈ queue (cells r) -> QueuedPost.id post <> fresh) ->
  relay_calls (enqueuePost fresh instant r) = [ (payload, fresh) ] ->
  mode (cells r) = now ->
  (forall call, graph call = Relay.Resolved rsp) ->
  Relay.upstream_status rsp = 200 ->
  Relay.id (default Relay.empty_object (Relay.upstream_json rsp)) = Some i ->
  i <> "" ->
  let st1 := run (cells r) (enqueuePost fresh instant r) in
  let st2 := run st1 (flat_map (transition server_now) (enqueuePost fresh instant r)) in
  (exists entry,
      queue st2 = entry :: queue (cells r)
      /\ QueuedPost.status entry = success
      /\ QueuedPost.response entry
         = Some {| Response.id := Some i; Response.error := None |})
  /\ error_banner st2 = None.
Proof.
  intros Hfresh Hcalls Hmode Hgraph Hstatus Hid Hi st1 st2.
  assert (Hreply : relay_reply server_now payload
                   = {| Relay.status := 200; Relay.body := Relay.IdBody i |}).
  { unfold relay_reply, Client.relay_reply.
    rewrite (now_payload_forwarded fresh instant r payload fresh server_now)
      by assumption.
    cbn [fst]. rewrite Hgraph. simpl. unfold Relay.map_response, Relay.ok.
    rewrite Hid, Hstatus. apply RelayFacts.truthy_spec in Hi. rewrite Hi. reflexivity. }
  destruct (transition_outcome fresh instant r server_now payload Hfresh Hcalls)
    as (queued & Hqid & Hq2 & Herr).
  rewrite (publishToMeta_on_id server_now payload i Hreply) in Hq2, Herr.
  subst st1 st2. split; [|exact Herr].
  eexists. split; [exact Hq2|]. simpl. auto.
Qed.

(** X21: When the upstream answers 200 without an id, the relay replies an error
    body under status 200, the client reads it as ok, and the entry ends
    (no older entry bearing the fresh id) as "success" with the error text
    as its response; no error is shown. *)
Theorem upstream_200_without_id_ends_as_success
    fresh instant r server_now payload rsp :
  (forall post, post ∈ queue (cells r) -> QueuedPost.id post <> fresh) ->
  relay_calls (enqueuePost fresh instant r) = [ (payload, fresh) ] ->
  mode (cells r) = now ->
  (forall call, graph call = Relay.Resolved rsp) ->
  Relay.upstream_status rsp = 200 ->
  supplied (Relay.id (default Relay.empty_object (Relay.upstream_json rsp))) = false ->
  let st1 := run (cells r) (enqueuePost fresh instant r) in
  let st2 := run st1 (flat_map (transition server_now) (enqueuePost fresh instant r)) in
  (exists entry,
      queue st2 = entry :: queue (cells r)
      /\ QueuedPost.status entry = success
      /\ QueuedPost.response entry
         = Some {| Response.id := None;
                   Response.error :=
                     Some (Relay.graphError
                             (default Relay.empty_object (Relay.upstream_json rsp))) |})
  /\ error_banner st2 = None.
Proof.
  intros Hfresh Hcalls Hmode Hgraph Hstatus Hid st1 st2.
  assert (Hreply : relay_reply server_now payload
                   = Relay.failure 200
                       (Relay.graphError
                          (default Relay.empty_object (Relay.upstream_json rsp)))).
  { unfold relay_reply, Client.relay_reply.
    rewrite (now_payload_forwarded fresh instant r payload fresh server_now)
      by assumption.
    cbn [fst]. rewrite Hgraph. simpl.
    unfold Relay.map_response, Relay.ok, Relay.status_or_500.
    rewrite Hstatus. simpl.
    destruct (Relay.id _) as [i|]; [|reflexivity].
    simpl in Hid. rewrite Hid. reflexivity. }
  destruct (transition_outcome fresh instant r server_now payload Hfresh Hcalls)
    as (queued & Hqid & Hq2 & Herr).
  rewrite (publishToMeta_on_error server_now payload 200 _ Hreply) in Hq2, Herr.
  subst st1 st2. split; [|exact Herr].
  eexists. split; [exact Hq2|]. simpl. auto.
Qed.

End Route.

End EndToEndFacts.

(** ** Properties of [usePersistentState] *)

Module PersistenceFacts.
Import JS Persistence.

Section Hook.

Context {T : Type}.
Variable JSON_parse : string -> option T.
Variable JSON_stringify : T -> string.
Variable Object_is : T -> T -> bool.
Variable quota : Storage -> string -> string -> bool.

#[local] Abbreviation persist := (Persistence.persist JSON_stringify quota).
#[local] Abbreviation restore := (Persistence.restore JSON_parse).
#[local] Abbreviation mount := (Persistence.mount JSON_parse JSON_stringify Object_is quota).
#[local] Abbreviation setValue := (Persistence.setValue JSON_stringify Object_is quota).
#[local] Abbreviation Object_is_sound := (Persistence.Object_is_sound Object_is).
#[local] Abbreviation roomy := (Persistence.roomy quota).
#[local] Abbreviation synced := (Persistence.synced JSON_stringify).

Lemma persist_lookup_other key value store k :
  k <> key -> persist key value store !! k = store !! k.
Proof.
  intros Hk. unfold persist, Persistence.persist, setItem.
  destruct (quota _ _ _); [|reflexivity]. apply lookup_insert_ne. congruence.
Qed.

Lemma persist_lookup key value store :
  roomy -> persist key value store !! key = Some (JSON_stringify value).
Proof.
  intros Hroom. unfold persist, Persistence.persist, setItem.
  rewrite Hroom. apply lookup_insert_eq.
Qed.

Lemma restore_lookup_other key store k :
  k <> key -> (restore key store).2 !! k = store !! k.
Proof.
  intros Hk. unfold restore, Persistence.restore.
  destruct (store !! key) as [serialized|]; [|reflexivity].
  destruct (truthy serialized); [|reflexivity].
  destruct (JSON_parse serialized); [reflexivity|].
  simpl. apply lookup_delete_ne. congruence.
Qed.

(** X22: Mounting and [setValue] read and write the hook's own key only: every
    other entry of the store is left as it was. *)
Theorem hook_touches_its_key_only key initialValue store next k :
  k <> key ->
  storage (mount key initialValue store) !! k = store !! k
  /\ storage (setValue key next (mount key initialValue store)) !! k = store !! k.
Proof.
  intros Hk.
  assert (Hmount : storage (mount key initialValue store) !! k = store !! k).
  { unfold mount, Persistence.mount.
    pose proof (restore_lookup_other key store k Hk) as Hrestore.
    destruct (restore key store) as [pending store1]. simpl in Hrestore.
    destruct pending as [parsed|]; [destruct (Object_is parsed initialValue)|];
      simpl; rewrite ?persist_lookup_other by assumption; exact Hrestore. }
  split; [exact Hmount|].
  unfold setValue, Persistence.setValue.
  destruct (Object_is next _); [exact Hmount|].
  simpl. rewrite persist_lookup_other by assumption. exact Hmount.
Qed.

(** The value a mount restores. *)
Lemma mount_value_restored key initialValue store serialized parsed :
  Object_is_sound ->
  store !! key = Some serialized ->
  serialized <> "" ->
  JSON_parse serialized = Some parsed ->
  value (mount key initialValue store) = parsed.
Proof.
  intros Hsound Hstored Hne Hparse. apply RelayFacts.truthy_spec in Hne.
  unfold mount, Persistence.mount, restore, Persistence.restore.
  rewrite Hstored, Hne, Hparse.
  destruct (Object_is parsed initialValue) eqn:His; [|reflexivity].
  simpl. symmetry. apply Hsound, His.
Qed.

(** After a mount whose writes fit, the store holds the serialised cell. *)
Lemma mount_synced key initialValue store :
  Object_is_sound -> roomy -> synced key (mount key initialValue store).
Proof.
  intros Hsound Hroom.
  unfold Persistence.synced, mount, Persistence.mount, restore, Persistence.restore.
  destruct (store !! key) as [serialized|]; [|apply persist_lookup, Hroom].
  destruct (truthy serialized); [|apply persist_lookup, Hroom].
  destruct (JSON_parse serialized) as [parsed|]; [|apply persist_lookup, Hroom].
  destruct (Object_is parsed initialValue); apply persist_lookup, Hroom.
Qed.

(** X23: A stored entry that parses is restored on mount, and written back in
    its serialised form. *)
Theorem mount_restores_stored_value key initialValue store serialized parsed :
  Object_is_sound -> roomy ->
  store !! key = Some serialized ->
  serialized <> "" ->
  JSON_parse serialized = Some parsed ->
  value (mount key initialValue store) = parsed
  /\ storage (mount key initialValue store) !! key = Some (JSON_stringify parsed).
Proof.
  intros Hsound Hroom Hstored Hne Hparse.
  apply RelayFacts.truthy_spec in Hne.
  unfold mount, Persistence.mount, restore, Persistence.restore.
  rewrite Hstored, Hne, Hparse.
  destruct (Object_is parsed initialValue) eqn:His; simpl.
  - apply Hsound in His. subst parsed. split; [reflexivity|].
    apply persist_lookup, Hroom.
  - split; [reflexivity|]. apply persist_lookup, Hroom.
Qed.

(** X24: With no entry, an empty one or one that does not parse, the cell keeps
    its initial value; a damaged entry is removed; and in each case the
    second effect then stores the serialised initial value, if it fits. *)
Theorem mount_falls_back_to_initial key initialValue store :
  (store !! key = None
   \/ store !! key = Some ""
   \/ exists serialized, store !! key = Some serialized
                         /\ JSON_parse serialized = None) ->
  value (mount key initialValue store) = initialValue
  /\ (roomy ->
      storage (mount key initialValue store)
      = <[key := JSON_stringify initialValue]> store)
  /\ ((forall s k v, quota s k v = false) ->
      (exists serialized, store !! key = Some serialized /\ serialized <> ""
                          /\ JSON_parse serialized = None) ->
      storage (mount key initialValue store) = delete key store).
Proof.
  intros Hcase. unfold mount, Persistence.mount, restore, Persistence.restore.
  unfold persist, Persistence.persist, setItem.
  destruct Hcase as [Hnone | [Hempty | (serialized & Hstored & Hparse)]].
  - rewrite Hnone. simpl. split; [reflexivity|]. split.
    + intros Hroom. rewrite Hroom. reflexivity.
    + intros _ (serialized & Hstored & _). congruence.
  - rewrite Hempty. simpl. split; [reflexivity|]. split.
    + intros Hroom. rewrite Hroom. reflexivity.
    + intros _ (serialized & Hstored & Hne & _). congruence.
  - rewrite Hstored. destruct (truthy serialized) eqn:Htruthy.
    + rewrite Hparse. simpl. split; [reflexivity|]. split.
      * intros Hroom. rewrite Hroom. apply insert_delete_eq.
      * intros Hfull _. rewrite Hfull. reflexivity.
    + simpl. split; [reflexivity|]. split.
      * intros Hroom. rewrite Hroom. reflexivity.
      * intros Hfull (serialized' & Hstored' & Hne & _).
        assert (serialized' = serialized) by congruence. subst serialized'.
        apply RelayFacts.truthy_spec in Hne. congruence.
Qed.

(** X25: Write-through: when every write fits, the store holds the serialised
    cell after mounting, whatever the store held, and after every
    [setValue]; and a later session that mounts on that store gets the
    value back, provided it serialises to a non-empty text that parses to
    it. *)
Theorem hook_writes_through key initialValue store next :
  Object_is_sound -> roomy ->
  let h := mount key initialValue store in
  let h' := setValue key next h in
  synced key h /\ synced key h' /\ value h' = next
  /\ (JSON_stringify next <> "" ->
      JSON_parse (JSON_stringify next) = Some next ->
      forall initialValue', value (mount key initialValue' (storage h')) = next).
Proof.
  intros Hsound Hroom h h'.
  assert (Hh : synced key h) by (apply mount_synced; assumption).
  assert (Hh' : synced key h' /\ value h' = next).
  { subst h'. unfold setValue, Persistence.setValue, Persistence.synced.
    destruct (Object_is next (value h)) eqn:His.
    - apply Hsound in His. subst next. split; [exact Hh | reflexivity].
    - simpl. split; [apply persist_lookup, Hroom | reflexivity]. }
  destruct Hh' as [Hh' Hv]. split; [exact Hh|]. split; [exact Hh'|].
  split; [exact Hv|].
  intros Hne Hparse initialValue'.
  unfold Persistence.synced in Hh'. rewrite Hv in Hh'.
  apply (mount_value_restored key initialValue' (storage h')
           (JSON_stringify next) next Hsound Hh' Hne Hparse).
Qed.

(** A write that does not fit is ignored: the cell takes the new value and
    the store is left as it was. *)
Lemma setValue_ignores_full_store key next h :
  Object_is next (value h) = false ->
  quota (storage h) key (JSON_stringify next) = false ->
  value (setValue key next h) = next
  /\ storage (setValue key next h) = storage h.
Proof.
  intros His Hfull. unfold setValue, Persistence.setValue.
  rewrite His. simpl. unfold persist, Persistence.persist, setItem.
  rewrite Hfull. split; reflexivity.
Qed.

End Hook.

End PersistenceFacts.

(** ** The relay on concrete requests *)

Module RelayExamples.
Import JS Relay RelaySamples RelayFacts.

(** The example of the specification: an immediate feed post. *)
Example POST_hello :
  POST Date_parse_excerpt graph_accepts new_URL_excerpt Response_error_excerpt clock (Some hello)
  = ({| status := 200; body := IdBody "999" |},
     [ {| targetUrl :=
            {| pathname := "/v19.0/123/feed"; search := ""; hash := "" |};
          bodyParams := <["message" := "hello"]> (<["access_token" := "tok"]> ∅) |} ]).
Proof. vm_compute. reflexivity. Qed.

Example POST_past :
  POST Date_parse_excerpt graph_accepts new_URL_excerpt Response_error_excerpt clock
       (Some (hello_at "2020-01-01T00:00:00.000Z" (Some "schedule")))
  = (failure 400 "scheduledTime must be in the future.", []).
Proof. vm_compute. reflexivity. Qed.

Example trim_examples :
  trim "  a b  " = "a b" /\ trim (String "009" (String "010" "")) = "" /\ trim "" = "".
Proof. vm_compute. auto. Qed.

(** White space of two and three bytes is stripped as well, and kept
    inside the text. *)
Example trim_unicode_examples :
  trim (nbsp +:+ " a" +:+ ideographic_space +:+ "b " +:+ nbsp)
    = "a" +:+ ideographic_space +:+ "b"
  /\ trim (ideographic_space +:+ nbsp) = ""
  /\ blank (Some nbsp) = true.
Proof. vm_compute. auto. Qed.

Lemma POST_missing_required_fields_witness :
  (blank (pageId whitespace_page) = true
   /\ POST Date_parse_excerpt graph_accepts new_URL_excerpt
           Response_error_excerpt clock (Some whitespace_page)
      = (failure 400 "Missing required pageId, accessToken, or message.", []))
  /\ (blank (message no_break_message) = true
      /\ POST Date_parse_excerpt graph_accepts new_URL_excerpt
              Response_error_excerpt clock (Some no_break_message)
         = (failure 400 "Missing required pageId, accessToken, or message.",
            [])).
Proof.
  split; (split; [reflexivity|]).
  - apply (POST_missing_required_fields Date_parse_excerpt graph_accepts
             new_URL_excerpt Response_error_excerpt clock whitespace_page).
    left. reflexivity.
  - apply (POST_missing_required_fields Date_parse_excerpt graph_accepts
             new_URL_excerpt Response_error_excerpt clock no_break_message).
    right. right. reflexivity.
Defined.

Lemma POST_scheduledTime_rejected_witness :
  POST Date_parse_excerpt graph_accepts new_URL_excerpt Response_error_excerpt clock
       (Some (hello_at "2020-01-01T00:00:00.000Z" (Some "schedule")))
    = (failure 400 "scheduledTime must be in the future.", [])
  /\ POST Date_parse_excerpt graph_accepts new_URL_excerpt Response_error_excerpt clock
       (Some (hello_at "next tuesday-ish" (Some "schedule")))
    = (failure 400 "scheduledTime must be an ISO date.", []).
Proof.
  split.
  - refine (proj1 (POST_scheduledTime_rejected Date_parse_excerpt graph_accepts new_URL_excerpt Response_error_excerpt
                     clock (hello_at "2020-01-01T00:00:00.000Z" (Some "schedule"))
                     "2020-01-01T00:00:00.000Z" _ _ _ _) 1577836800000 _ _);
      try reflexivity; [discriminate | vm_compute; discriminate].
  - refine (proj2 (POST_scheduledTime_rejected Date_parse_excerpt graph_accepts new_URL_excerpt Response_error_excerpt
                     clock (hello_at "next tuesday-ish" (Some "schedule"))
                     "next tuesday-ish" _ _ _ _) _);
      try reflexivity; discriminate.
Defined.

Lemma POST_schedule_and_publish_flags_witness :
  (exists call,
      (POST Date_parse_excerpt graph_accepts new_URL_excerpt Response_error_excerpt clock
            (Some (hello_at "2030-01-01T00:00:00.000Z" (Some "schedule")))).2 = [call]
      /\ bodyParams call !! "scheduled_publish_time" = Some "1893456000"
      /\ bodyParams call !! "published" = Some "false")
  /\ (exists call,
      (POST Date_parse_excerpt graph_accepts new_URL_excerpt Response_error_excerpt clock (Some hello)).2 = [call]
      /\ bodyParams call !! "scheduled_publish_time" = None
      /\ bodyParams call !! "published" = None)
  /\ (exists call,
      (POST Date_parse_excerpt graph_accepts new_URL_excerpt Response_error_excerpt clock (Some photo)).2 = [call]
      /\ bodyParams call !! "scheduled_publish_time" = None
      /\ bodyParams call !! "published" = Some "true").
Proof.
  assert (Hclock : 0 <= clock) by (unfold clock; lia).
  split; [|split].
  - refine (proj1 (POST_schedule_and_publish_flags Date_parse_excerpt
                     graph_accepts new_URL_excerpt Response_error_excerpt clock
                     (hello_at "2030-01-01T00:00:00.000Z" (Some "schedule"))
                     _ Hclock)
                  "2030-01-01T00:00:00.000Z" 1893456000000 _ _ _ _ _);
      try reflexivity; discriminate.
  - refine (proj1 (proj2 (POST_schedule_and_publish_flags Date_parse_excerpt
                            graph_accepts new_URL_excerpt Response_error_excerpt clock hello _ Hclock)) _ _ _);
      reflexivity.
  - refine (proj2 (proj2 (POST_schedule_and_publish_flags Date_parse_excerpt
                            graph_accepts new_URL_excerpt Response_error_excerpt clock photo _ Hclock)) _ _ _);
      reflexivity.
Defined.

Example POST_endpoint_and_link_example :
  (targetUrl photo_call
     = new_URL_excerpt "https://graph.facebook.com/v19.0/123/photos"
   /\ bodyParams photo_call !! "link" = None)
  /\ (targetUrl scheduled_call
       = new_URL_excerpt "https://graph.facebook.com/v19.0/123/feed"
      /\ bodyParams scheduled_call !! "link" = Some "https://example.com/a").
Proof.
  split.
  - refine (proj1 (POST_endpoint_and_link Date_parse_excerpt graph_accepts
                     new_URL_excerpt Response_error_excerpt clock
                     photo "123" photo_call _ _) _); reflexivity.
  - destruct (proj2 (POST_endpoint_and_link Date_parse_excerpt graph_accepts
                       new_URL_excerpt Response_error_excerpt clock
                       (hello_at "2030-01-01T00:00:00.000Z" None) "123"
                       scheduled_call eq_refl eq_refl) eq_refl) as [Hurl Hlink].
    split; [exact Hurl|].
    refine (Hlink "https://example.com/a" _ _); [reflexivity|discriminate].
Qed.

(** C5: the photo request with page id "123#" (and a non-empty imageUrl)
    passes validation and is forwarded, but not to the photos endpoint.
    The handler pastes the page id into the URL text as it came, so
    [new URL] ends the path at the "#": the one call goes to /v19.0/123,
    and "/photos" is left in the fragment, which is not sent.  The form is
    the one of a photo post (url, published, no link). *)
Theorem POST_page_id_cuts_endpoint :
  supplied (imageUrl photo_hash) = true
  /\ POST Date_parse_excerpt graph_accepts new_URL_excerpt
          Response_error_excerpt clock (Some photo_hash)
     = ({| status := 200; body := IdBody "999" |},
        [ {| targetUrl :=
               {| pathname := "/v19.0/123"; search := "";
                  hash := "#/photos" |};
             bodyParams :=
               <["published" := "true"]>
                 (<["url" := "https://example.com/a.png"]>
                    (<["message" := "hello"]>
                       (<["access_token" := "tok"]> ∅))) |} ]).
Proof. split; vm_compute; reflexivity. Qed.

Lemma POST_mode_irrelevant_witness :
  POST Date_parse_excerpt graph_accepts new_URL_excerpt Response_error_excerpt clock
       (Some (hello_at "2030-01-01T00:00:00.000Z" (Some "now")))
    = POST Date_parse_excerpt graph_accepts new_URL_excerpt Response_error_excerpt clock
       (Some (hello_at "2030-01-01T00:00:00.000Z" (Some "schedule")))
  /\ (exists call,
      (POST Date_parse_excerpt graph_accepts new_URL_excerpt Response_error_excerpt clock
            (Some (hello_at "2030-01-01T00:00:00.000Z" None))).2 = [call]
      /\ bodyParams call !! "scheduled_publish_time" = Some "1893456000"
      /\ bodyParams call !! "published" = Some "false")
  /\ POST Date_parse_excerpt graph_accepts new_URL_excerpt Response_error_excerpt clock
       (Some (hello_at "2030-01-01T00:00:00.000Z" (Some "later")))
    = (failure 400 "Invalid mode provided.", []).
Proof.
  split; [|split].
  - refine (proj1 (POST_mode_irrelevant Date_parse_excerpt graph_accepts new_URL_excerpt Response_error_excerpt clock
                     (hello_at "2030-01-01T00:00:00.000Z" None))
                  (Some "now") (Some "schedule") _ _); reflexivity.
  - refine (proj1 (proj2 (POST_mode_irrelevant Date_parse_excerpt graph_accepts new_URL_excerpt Response_error_excerpt
                            clock (hello_at "2030-01-01T00:00:00.000Z" None)))
                  "2030-01-01T00:00:00.000Z" 1893456000000 _ _ _ _ _ _ _);
      try reflexivity; [unfold clock; lia | discriminate].
  - refine (proj2 (proj2 (POST_mode_irrelevant Date_parse_excerpt graph_accepts new_URL_excerpt Response_error_excerpt
                            clock (hello_at "2030-01-01T00:00:00.000Z" (Some "later"))))
                  _ _); reflexivity.
Defined.

Example POST_result_mapping_example :
  (POST Date_parse_excerpt graph_accepts new_URL_excerpt
        Response_error_excerpt clock (Some hello)).1
    = {| status := 200; body := IdBody "999" |}
  /\ (status (POST Date_parse_excerpt graph_down new_URL_excerpt
                   Response_error_excerpt clock (Some hello)).1 = 502
      /\ body (POST Date_parse_excerpt graph_down new_URL_excerpt
                    Response_error_excerpt clock (Some hello)).1
         = ErrorBody "Meta API error.").
Proof.
  split.
  - refine (proj2 (proj1 (POST_result_mapping Date_parse_excerpt graph_accepts
                            new_URL_excerpt Response_error_excerpt
                            clock (Some hello) _ _ eq_refl eq_refl) "999") _).
    repeat split. discriminate.
  - refine (proj2 (POST_result_mapping Date_parse_excerpt graph_down
                     new_URL_excerpt Response_error_excerpt clock
                     (Some hello) _ _ eq_refl eq_refl) _).
    left. reflexivity.
Qed.

(** C3: when the upstream answers 204 No Content (an empty body, so no
    id), the request [hello] having been forwarded, the relay does not
    reply with the upstream status 204 and "Meta API error.".
    [NextResponse.json] throws on the null body status 204 inside the
    [try], and the [catch] replies 500 with the message of that error,
    whatever the runtime's wording [Response_error] is. *)
Theorem POST_no_content_reply (Response_error : Z -> string) :
  POST Date_parse_excerpt graph_no_content new_URL_excerpt Response_error
       clock (Some hello)
  = ({| status := 500; body := ErrorBody (Response_error 204) |},
     [ {| targetUrl :=
            {| pathname := "/v19.0/123/feed"; search := ""; hash := "" |};
          bodyParams :=
            <["message" := "hello"]> (<["access_token" := "tok"]> ∅) |} ]).
Proof. vm_compute. reflexivity. Qed.

End RelayExamples.

(** ** The dashboard on concrete sessions *)

Module DashboardExamples.
Import JS Dashboard DashboardSamples DashboardFacts.

(** Submitted right away, at 23:02, the post is queued. *)
Example enqueuePost_in_time :
  enqueuePost toISOString_excerpt "id-0" 1893452520000 chosen
  = [ setQueue_prepend
        {| QueuedPost.id := "id-0"; QueuedPost.message := "hello";
           QueuedPost.link := None; QueuedPost.imageUrl := None;
           QueuedPost.mode := schedule;
           QueuedPost.scheduledTime := Some "2030-01-01T00:00";
           QueuedPost.createdAt := "2029-12-31T23:02:00.000Z";
           QueuedPost.status := pending; QueuedPost.response := None |};
      setError None;
      setSuccess (Some "Scheduled post queued.");
      startTransition
        {| PublishPayload.pageId := "123"; PublishPayload.accessToken := "tok";
           PublishPayload.message := "hello"; PublishPayload.link := None;
           PublishPayload.imageUrl := None;
           PublishPayload.scheduledTime := Some "2030-01-01T00:00";
           PublishPayload.mode := schedule |} "id-0" ].
Proof. vm_compute. reflexivity. Qed.

(** The relay then answers with the id 999 and the entry is marked. *)
Example enqueuePost_then_resolved :
  let submitted := enqueuePost toISOString_excerpt "id-0" 1893452520000 chosen in
  let st := run (cells chosen) submitted in
  (fun post => (QueuedPost.id post, QueuedPost.status post))
    <$> queue (run st (flat_map (fun a => resume a published) submitted))
  = [("id-0", success)].
Proof. vm_compute. reflexivity. Qed.

(** C6, at the failing session: the post is submitted at 00:01, one minute
    after its scheduled time.  [isFuture] is false at that instant, yet the
    memoised [canSchedule] of 23:01 is still true, so the entry is queued
    and the relay call issued. *)
Theorem enqueuePost_stale_canSchedule :
  mode (cells late) = schedule
  /\ isFuture (parseISO_excerpt (scheduledTime (cells late))) 1893456060000 = false
  /\ canSchedule late = true
  /\ created_entries (enqueuePost toISOString_excerpt "id-1" 1893456060000 late)
     = [ {| QueuedPost.id := "id-1"; QueuedPost.message := "hello";
            QueuedPost.link := Some "https://example.com/a";
            QueuedPost.imageUrl := None;
            QueuedPost.mode := schedule;
            QueuedPost.scheduledTime := Some "2030-01-01T00:00";
            QueuedPost.createdAt := "2030-01-01T00:01:00.000Z";
            QueuedPost.status := pending; QueuedPost.response := None |} ]
  /\ relay_calls (enqueuePost toISOString_excerpt "id-1" 1893456060000 late)
     = [ ({| PublishPayload.pageId := "123"; PublishPayload.accessToken := "tok";
             PublishPayload.message := "hello";
             PublishPayload.link := Some "https://example.com/a";
             PublishPayload.imageUrl := None;
             PublishPayload.scheduledTime := Some "2030-01-01T00:00";
             PublishPayload.mode := schedule |}, "id-1") ].
Proof. vm_compute. repeat split. Qed.

Lemma settle_updates_matching_entry_only_witness :
  (exists post',
      queue (run two_pending (settle "id-a" published)) !! 1%nat = Some post'
      /\ QueuedPost.status post' = success
      /\ QueuedPost.response post'
         = Some {| Response.id := Some "999"; Response.error := None |})
  /\ queue (run two_pending (settle "id-a" published)) !! 0%nat
     = Some (entry "id-b" "second")
  /\ queue (run two_pending (settle "id-gone" published)) = queue two_pending.
Proof.
  pose proof (settle_updates_matching_entry_only two_pending "id-a" published)
    as (_ & Hhit & Hmiss & _).
  pose proof (settle_updates_matching_entry_only two_pending "id-gone" published)
    as (_ & _ & _ & Hnone).
  split; [|split].
  - destruct (Hhit 1%nat (entry "id-a" "first") eq_refl eq_refl)
      as (post' & Hlook & Hstatus & Hresp & _).
    exists post'. auto.
  - apply (Hmiss 0%nat (entry "id-b" "second") eq_refl). discriminate.
  - apply Hnone. intros post Hin.
    apply list_elem_of_In in Hin. simpl in Hin.
    destruct Hin as [<- | [<- | []]]; discriminate.
Defined.

Lemma handleTemplateSave_replaces_by_name_witness :
  templates (run (cells typed) (handleTemplateSave "t-1" (cells typed)))
    = templates (cells typed)
  /\ (exists saved,
      templates (run naming (handleTemplateSave "t-1" naming)) = [] ++ [saved]
      /\ PostTemplate.id saved = "t-1"
      /\ PostTemplate.name saved = "A"
      /\ PostTemplate.message saved = "X")
  /\ (exists saved,
      filter (fun tpl => PostTemplate.name tpl = "A")
        (templates
           (run (run (run (run naming (retype "A" "X"))
                          (handleTemplateSave "t-1" (run naming (retype "A" "X"))))
                     (retype "A" "Y"))
                (handleTemplateSave "t-2"
                   (run (run (run naming (retype "A" "X"))
                             (handleTemplateSave "t-1" (run naming (retype "A" "X"))))
                        (retype "A" "Y")))))
      = [saved]
      /\ PostTemplate.id saved = "t-2"
      /\ PostTemplate.message saved = "Y")
  /\ templates
       (run (run naming (retype RelaySamples.nbsp "X"))
            (handleTemplateSave "t-1" (run naming (retype RelaySamples.nbsp "X"))))
     = templates (run naming (retype RelaySamples.nbsp "X")).
Proof.
  split; [|split; [|split]].
  - apply (proj1 (handleTemplateSave_replaces_by_name (cells typed) "t-1" "t-2")).
    left. reflexivity.
  - apply (proj1 (proj2 (handleTemplateSave_replaces_by_name naming "t-1" "t-2")));
      reflexivity.
  - apply (proj2 (proj2 (handleTemplateSave_replaces_by_name naming "t-1" "t-2"))).
  - apply (proj1 (handleTemplateSave_replaces_by_name
                    (run naming (retype RelaySamples.nbsp "X")) "t-1" "t-2")).
    left. reflexivity.
Defined.

End DashboardExamples.

(** ** The added properties on concrete inputs *)

Module MoreExamples.
Import JS Dashboard Notions Events Client Persistence.
Import RelaySamples DashboardSamples MoreSamples.
Import RelayMoreFacts DashboardMoreFacts QueueFacts EndToEndFacts PersistenceFacts.

Lemma POST_forwards_trimmed_credentials_witness :
  Relay.bodyParams photo_call !! "access_token" = Some "tok"
  /\ Relay.bodyParams photo_call !! "message" = Some "hello".
Proof.
  destruct (POST_forwards_trimmed_credentials Date_parse_excerpt graph_accepts new_URL_excerpt Response_error_excerpt clock
              photo photo_call eq_refl)
    as (tok & msg & Htok & Hmsg & Ha & _ & Hm & _).
  injection Htok as <-. injection Hmsg as <-. split; [exact Ha | exact Hm].
Defined.

Lemma POST_forwarded_fields_witness :
  Relay.bodyParams photo_call !! "url" = Some "https://example.com/a.png"
  /\ (Relay.bodyParams photo_call !! "link" = None
      \/ Relay.bodyParams photo_call !! "url" = None).
Proof.
  destruct (POST_forwarded_fields Date_parse_excerpt graph_accepts new_URL_excerpt Response_error_excerpt clock
              photo photo_call eq_refl) as (_ & Hurl & _ & Hexcl).
  split; [|exact Hexcl].
  apply (Hurl "https://example.com/a.png" eq_refl). discriminate.
Defined.

Lemma POST_forwarded_schedule_flags_witness :
  exists ts, "1893456000" = String_of_number ts /\ Relay.epoch_seconds clock < ts.
Proof.
  destruct (POST_forwarded_schedule_flags Date_parse_excerpt graph_accepts new_URL_excerpt Response_error_excerpt clock
              (hello_at "2030-01-01T00:00:00.000Z" None) scheduled_call eq_refl)
    as (_ & Htime & _).
  apply Htime. reflexivity.
Defined.

Lemma POST_upstream_throws_witness :
  (Relay.POST Date_parse_excerpt graph_unreachable new_URL_excerpt Response_error_excerpt clock (Some hello)).1
  = {| Relay.status := 500; Relay.body := Relay.ErrorBody "fetch failed" |}.
Proof.
  apply (POST_upstream_throws Date_parse_excerpt graph_unreachable new_URL_excerpt Response_error_excerpt clock
           (Some hello) hello_call (Some "fetch failed")); reflexivity.
Defined.

Lemma library_names_unique : NoDup (names (templates library)).
Proof. apply (bool_decide_unpack _). vm_compute. exact I. Defined.

Lemma template_names_stay_unique_witness :
  NoDup (names (templates (run library (handleTemplateSave "t-3" library))))
  /\ NoDup (names (templates (run library (handleTemplateDelete "t-1" library)))).
Proof.
  apply (template_names_stay_unique library "t-3" "t-1"), library_names_unique.
Defined.

Lemma library_normal : Forall normal (templates library).
Proof.
  repeat constructor; try discriminate; try reflexivity;
    intros text Habs; discriminate Habs.
Defined.

Lemma templates_stay_normal_witness :
  Forall normal (templates (run library (handleTemplateSave "t-3" library)))
  /\ Forall normal (templates (run library (handleTemplateDelete "t-1" library))).
Proof. apply (templates_stay_normal library "t-3" "t-1"), library_normal. Defined.

Lemma save_then_delete_witness :
  templates (run (run library (handleTemplateSave "t-3" library))
                 (handleTemplateDelete "t-3"
                    (run library (handleTemplateSave "t-3" library))))
  = templates library.
Proof.
  apply (save_then_delete library "t-3" eq_refl eq_refl).
  intros tpl Htpl. apply list_elem_of_In in Htpl. simpl in Htpl.
  destruct Htpl as [<- | [<- | []]]; split; discriminate.
Defined.

Lemma save_then_apply_witness :
  exists saved,
    last (templates (run library (handleTemplateSave "t-3" library))) = Some saved
    /\ PostTemplate.id saved = "t-3"
    /\ message (run (run library (handleTemplateSave "t-3" library))
                    (applyTemplate saved)) = "Hello"
    /\ link (run (run library (handleTemplateSave "t-3" library))
                 (applyTemplate saved)) = "https://example.com/a"
    /\ imageUrl (run (run library (handleTemplateSave "t-3" library))
                     (applyTemplate saved)) = "".
Proof. apply (save_then_apply library "t-3" eq_refl eq_refl). Defined.

Lemma settle_queue_commutes_witness :
  settle_queue "id-a" published (settle_queue "id-b" refused (queue two_pending))
  = settle_queue "id-b" refused (settle_queue "id-a" published (queue two_pending)).
Proof. apply settle_queue_commutes. discriminate. Defined.

Lemma enqueuePost_pairs_entry_with_call_witness :
  (exists queued,
      created_entries (enqueuePost toISOString_excerpt "id-1" 1893456060000 late)
      = [ queued ]
      /\ QueuedPost.id queued = "id-1"
      /\ QueuedPost.status queued = pending
      /\ QueuedPost.message queued = "hello"
      /\ QueuedPost.link queued = Some "https://example.com/a"
      /\ QueuedPost.imageUrl queued = None
      /\ QueuedPost.scheduledTime queued = Some "2030-01-01T00:00")
  /\ (is_Some (Some "2030-01-01T00:00") <-> schedule = schedule).
Proof.
  destruct (enqueuePost_pairs_entry_with_call toISOString_excerpt "id-1"
              1893456060000 late payload_late "id-1" eq_refl) as (Hentry & Hsched & _).
  split; [exact Hentry | exact Hsched].
Defined.

Lemma submit_then_settle_witness :
  exists queued,
    QueuedPost.id queued = "id-0"
    /\ queue (run (cells typed) (enqueuePost toISOString_excerpt "id-0" 1893452520000 typed))
       = queued :: []
    /\ queue (run (run (cells typed)
                       (enqueuePost toISOString_excerpt "id-0" 1893452520000 typed))
                  (flat_map (fun a => resume a refused)
                     (enqueuePost toISOString_excerpt "id-0" 1893452520000 typed)))
       = settled refused queued :: []
    /\ QueuedPost.status (settled refused queued) = error
    /\ QueuedPost.response (settled refused queued)
       = Some {| Response.id := None; Response.error := Some "Meta API error." |}.
Proof.
  apply (submit_then_settle toISOString_excerpt "id-0" 1893452520000 typed refused).
  - intros post Hin. apply list_elem_of_In in Hin. destruct Hin.
  - discriminate.
Defined.

Lemma dashboard_payload_passes_relay_checks_witness :
  Relay.required_present (to_request payload_now) = true
  /\ Relay.invalid_mode (Relay.mode (to_request payload_now)) = false
  /\ exists call,
       (Relay.POST Date_parse_local graph_accepts new_URL_excerpt Response_error_excerpt clock
                   (Some (to_request payload_now))).2 = [call]
       /\ Relay.bodyParams call !! "scheduled_publish_time" = None
       /\ Relay.bodyParams call !! "message" = Some "hello".
Proof.
  destruct (dashboard_payload_passes_relay_checks Date_parse_local graph_accepts new_URL_excerpt Response_error_excerpt
              toISOString_excerpt "id-0" 1893452520000 typed payload_now "id-0"
              eq_refl) as (Hreq & Hmode & Hfwd).
  split; [exact Hreq|]. split; [exact Hmode|]. apply (Hfwd eq_refl clock).
Defined.

Lemma late_has_empty_queue :
  forall post, post ∈ queue (cells late) -> QueuedPost.id post <> "id-1".
Proof. intros post Hin. apply list_elem_of_In in Hin. destruct Hin. Defined.

Lemma typed_has_empty_queue :
  forall post, post ∈ queue (cells typed) -> QueuedPost.id post <> "id-0".
Proof. intros post Hin. apply list_elem_of_In in Hin. destruct Hin. Defined.

Lemma late_schedule_ends_as_error_witness :
  let submitted := enqueuePost toISOString_excerpt "id-1" 1893456060000 late in
  let st2 :=
    run (run (cells late) submitted)
        (flat_map (transition Date_parse_local graph_accepts new_URL_excerpt Response_error_excerpt reason_phrase_excerpt
                              1893456060000) submitted) in
  (Relay.POST Date_parse_local graph_accepts new_URL_excerpt Response_error_excerpt 1893456060000
              (Some (to_request payload_late))).2 = []
  /\ (exists entry,
        queue st2 = entry :: queue (cells late)
        /\ QueuedPost.id entry = "id-1"
        /\ QueuedPost.status entry = error
        /\ QueuedPost.response entry
           = Some {| Response.id := None;
                     Response.error := Some "scheduledTime must be in the future." |})
  /\ banner st2 = Some (red, "scheduledTime must be in the future.").
Proof.
  apply (late_schedule_ends_as_error Date_parse_local graph_accepts new_URL_excerpt Response_error_excerpt
           reason_phrase_excerpt toISOString_excerpt "id-1" 1893456060000 late
           1893456060000 payload_late 1893456000000 late_has_empty_queue);
    try reflexivity; discriminate.
Defined.

Lemma accepted_post_ends_as_success_witness :
  let submitted := enqueuePost toISOString_excerpt "id-0" 1893452520000 typed in
  let st2 :=
    run (run (cells typed) submitted)
        (flat_map (transition Date_parse_local graph_accepts new_URL_excerpt Response_error_excerpt reason_phrase_excerpt
                              1893452521000) submitted) in
  (exists entry,
      queue st2 = entry :: queue (cells typed)
      /\ QueuedPost.status entry = success
      /\ QueuedPost.response entry
         = Some {| Response.id := Some "999"; Response.error := None |})
  /\ error_banner st2 = None.
Proof.
  apply (accepted_post_ends_as_success Date_parse_local graph_accepts new_URL_excerpt Response_error_excerpt
           reason_phrase_excerpt toISOString_excerpt "id-0" 1893452520000 typed
           1893452521000 payload_now
           {| Relay.upstream_status := 200;
              Relay.upstream_json :=
                Some {| Relay.id := Some "999"; Relay.error := None |} |}
           "999" typed_has_empty_queue);
    try reflexivity. discriminate.
Defined.

Lemma upstream_200_without_id_ends_as_success_witness :
  let submitted := enqueuePost toISOString_excerpt "id-0" 1893452520000 typed in
  let st2 :=
    run (run (cells typed) submitted)
        (flat_map (transition Date_parse_local graph_empty new_URL_excerpt Response_error_excerpt reason_phrase_excerpt
                              1893452521000) submitted) in
  (exists entry,
      queue st2 = entry :: queue (cells typed)
      /\ QueuedPost.status entry = success
      /\ QueuedPost.response entry
         = Some {| Response.id := None; Response.error := Some "Meta API error." |})
  /\ error_banner st2 = None.
Proof.
  apply (upstream_200_without_id_ends_as_success Date_parse_local graph_empty new_URL_excerpt Response_error_excerpt
           reason_phrase_excerpt toISOString_excerpt "id-0" 1893452520000 typed
           1893452521000 payload_now
           {| Relay.upstream_status := 200;
              Relay.upstream_json := Some Relay.empty_object |}
           typed_has_empty_queue);
    reflexivity.
Defined.

(** The page id cell, [usePersistentState("metaPageId", "")]: strings are
    compared by value. *)
Lemma eqb_sound : Object_is_sound String.eqb.
Proof. intros a b H. apply String.eqb_eq, H. Defined.

Lemma unlimited_roomy : roomy unlimited.
Proof. intros store key value. reflexivity. Defined.

Lemma hook_touches_its_key_only_witness :
  storage (mount parse_excerpt stringify_excerpt String.eqb unlimited
                 "metaPageId" "" earlier_store) !! "metaAccessToken"
    = Some "{not json"
  /\ storage (setValue stringify_excerpt String.eqb unlimited "metaPageId" "456"
                (mount parse_excerpt stringify_excerpt String.eqb unlimited
                       "metaPageId" "" earlier_store)) !! "metaAccessToken"
    = Some "{not json".
Proof.
  apply (hook_touches_its_key_only parse_excerpt stringify_excerpt String.eqb
           unlimited "metaPageId" "" earlier_store "456" "metaAccessToken").
  discriminate.
Defined.

Lemma mount_restores_stored_value_witness :
  value (mount parse_excerpt stringify_excerpt String.eqb unlimited
               "metaPageId" "" earlier_store) = "123"
  /\ storage (mount parse_excerpt stringify_excerpt String.eqb unlimited
                    "metaPageId" "" earlier_store) !! "metaPageId"
     = Some (stringify_excerpt "123").
Proof.
  apply (mount_restores_stored_value parse_excerpt stringify_excerpt String.eqb
           unlimited "metaPageId" "" earlier_store (stringify_excerpt "123") "123"
           eqb_sound unlimited_roomy); try reflexivity. discriminate.
Defined.

Lemma mount_falls_back_to_initial_witness :
  value (mount parse_excerpt stringify_excerpt String.eqb unlimited
               "metaAccessToken" "" earlier_store) = ""
  /\ storage (mount parse_excerpt stringify_excerpt String.eqb unlimited
                    "metaAccessToken" "" earlier_store)
     = <["metaAccessToken" := stringify_excerpt ""]> earlier_store.
Proof.
  destruct (mount_falls_back_to_initial parse_excerpt stringify_excerpt String.eqb
              unlimited "metaAccessToken" "" earlier_store) as (Hvalue & Hstore & _).
  - right. right. exists "{not json". split; reflexivity.
  - split; [exact Hvalue | exact (Hstore unlimited_roomy)].
Defined.

Lemma hook_writes_through_witness :
  let h := mount parse_excerpt stringify_excerpt String.eqb unlimited
                 "metaPageId" "" earlier_store in
  let h' := setValue stringify_excerpt String.eqb unlimited "metaPageId" "456" h in
  synced stringify_excerpt "metaPageId" h
  /\ synced stringify_excerpt "metaPageId" h'
  /\ value h' = "456"
  /\ value (mount parse_excerpt stringify_excerpt String.eqb unlimited
                  "metaPageId" "" (storage h')) = "456".
Proof.
  destruct (hook_writes_through parse_excerpt stringify_excerpt String.eqb unlimited
              "metaPageId" "" earlier_store "456" eqb_sound unlimited_roomy)
    as (Hh & Hh' & Hv & Hback).
  split; [exact Hh|]. split; [exact Hh'|]. split; [exact Hv|].
  apply Hback; [discriminate | reflexivity].
Defined.

(** "Schedule" is clicked at 23:01 with the default 00:00, the link is
    typed at 00:00:30 and the post submitted at 00:01. *)
Lemma canSchedule_frozen_after_schedule_click_witness :
  let r2 :=
    renders parseISO_excerpt
      (rerender parseISO_excerpt 1893452460000 typed
                (click_schedule "2030-01-01T00:00"))
      [ (1893456030000, [ setLink "https://example.com/a" ]) ] in
  canSchedule r2 = true
  /\ exists payload,
       relay_calls (enqueuePost toISOString_excerpt "id-1" 1893456060000 r2)
       = [ (payload, "id-1") ]
       /\ PublishPayload.scheduledTime payload = Some "2030-01-01T00:00".
Proof.
  destruct (canSchedule_frozen_after_schedule_click parseISO_excerpt
              toISOString_excerpt typed 1893452460000 "2030-01-01T00:00"
              1893456000000
              [ (1893456030000, [ setLink "https://example.com/a" ]) ])
    as (_ & _ & Hv & Hcall).
  - reflexivity.
  - reflexivity.
  - reflexivity.
  - reflexivity.
  - repeat constructor.
  - split; [exact Hv|].
    apply (Hcall eq_refl eq_refl eq_refl "id-1" 1893456060000).
Defined.

End MoreExamples.
